(** * Blockso frontend: profile page, naming label, profile forms, cookie helper

    A shallow embedding of the parts of the React frontend that decide what
    is displayed for an address and how the forms mutate their state:

    - [Utils.getCookie]                      (utils.js)
    - [EnsAndAddress.EnsAndAddress]          (components/EnsAndAddress.js)
    - [Profile]: [determineProfilePic], [fetchProfile], [handleFollow],
      the two effects and the avatar part of the JSX   (index.js)
    - [CreateProfileForm.handleSubmit]       (pages/CreateProfile/CreateProfileForm.js)
    - [FileUpload.handleFileSubmit]          (pages/CreateProfile/FileUpload.js)

    JavaScript strings are modelled by Rocq strings, one [ascii] per code
    unit, which is exact for strings whose code units are below 256 (cookie
    headers, hexadecimal addresses, URLs).  Objects used as records
    (props, profile JSON) are finite maps from property names to values. *)

From Stdlib Require Import ZArith Ascii String List Bool.
From stdpp Require Import base option list strings gmap fin_maps.
Import ListNotations.

Local Open Scope Z_scope.

(** ** JavaScript values *)

Module Js.

(** The values the modelled code handles.  [JRef] stands for any object,
    array or function; it is compared by identity. *)
Inductive jsval : Type :=
| JUndefined
| JNull
| JBool (b : bool)
| JNum (z : Z)
| JStr (s : string)
| JRef (id : nat).

#[global] Instance jsval_eq_dec : EqDecision jsval.
Proof. solve_decision. Defined.

#[global] Instance jsval_inhabited : Inhabited jsval := populate JUndefined.

(** An object used as a record: own enumerable properties. *)
Abbreviation obj := (gmap string jsval).

(** [a === b] and [a !== b]. *)
Definition strict_eq (a b : jsval) : bool := bool_decide (a = b).
Definition strict_neq (a b : jsval) : bool := negb (strict_eq a b).

(** ToBoolean. *)
Definition truthy (v : jsval) : bool :=
  match v with
  | JUndefined | JNull => false
  | JBool b => b
  | JNum z => negb (z =? 0)
  | JStr s => negb (bool_decide (s = ""))
  | JRef _ => true
  end.

(** [!v]. *)
Definition js_not (v : jsval) : jsval := JBool (negb (truthy v)).

(** [a || b]: the first operand when it is truthy, else the second. *)
Definition js_or (a b : jsval) : jsval := if truthy a then a else b.

(** ToPropertyKey for the primitives that can be written on the left of
    [in]; numbers and references are not used as keys by the code. *)
Definition to_property_key (v : jsval) : string :=
  match v with
  | JUndefined => "undefined"
  | JNull => "null"
  | JBool true => "true"
  | JBool false => "false"
  | JStr s => s
  | JNum _ => "number"
  | JRef _ => "[object Object]"
  end.

(** [k in o]. *)
Definition js_in (k : jsval) (o : obj) : bool :=
  bool_decide (is_Some (o !! to_property_key k)).

(** [o[k]] and [o.k]: [undefined] when the property is absent. *)
Definition get (o : obj) (k : string) : jsval := default JUndefined (o !! k).

(** Errors a modelled function can throw. *)
Inductive JsError : Type :=
| TypeError
| URIError
| NetworkError
| SyntaxError
| ProviderError.

Inductive Result (A : Type) : Type :=
| Ok (a : A)
| Err (e : JsError).
Arguments Ok {A} a.
Arguments Err {A} e.

(** *** String methods *)

(** [s.substr(start, len)] for non-negative arguments. *)
Definition substr (start len : nat) (s : string) : string :=
  String.substring start len s.

(** White space removed by [String.prototype.trim], below code unit 256. *)
Definition is_white_space (c : ascii) : bool :=
  match c with
  | "009" | "010" | "011" | "012" | "013" | " " | "160" => true
  | _ => false
  end%char.

Fixpoint trim_start (s : string) : string :=
  match s with
  | EmptyString => EmptyString
  | String c s' => if is_white_space c then trim_start s' else s
  end.

Fixpoint trim_end (s : string) : string :=
  match s with
  | EmptyString => EmptyString
  | String c s' =>
      match trim_end s' with
      | EmptyString => if is_white_space c then EmptyString else String c EmptyString
      | r => String c r
      end
  end.

(** [s.trim()]. *)
Definition trim (s : string) : string := trim_end (trim_start s).

(** [s.split(sep)] for a separator of one character: never empty. *)
Fixpoint split (sep : ascii) (s : string) : list string :=
  match s with
  | EmptyString => [EmptyString]
  | String c s' =>
      if bool_decide (c = sep) then EmptyString :: split sep s'
      else match split sep s' with
           | [] => [String c EmptyString]
           | h :: t => String c h :: t
           end
  end.

(** [s.startsWith(p)]. *)
Definition startsWith (s p : string) : bool := String.prefix p s.

(** Whether the character [c] occurs in [s]. *)
Fixpoint occurs (c : ascii) (s : string) : bool :=
  match s with
  | EmptyString => false
  | String a s' => if bool_decide (a = c) then true else occurs c s'
  end.

(** The part of [s] before the first [c]; all of [s] when [c] does not
    occur. *)
Fixpoint before (c : ascii) (s : string) : string :=
  match s with
  | EmptyString => EmptyString
  | String a s' => if bool_decide (a = c) then EmptyString else String a (before c s')
  end.

(** The part of [s] after the first [c]; empty when [c] does not occur. *)
Fixpoint after (c : ascii) (s : string) : string :=
  match s with
  | EmptyString => EmptyString
  | String a s' => if bool_decide (a = c) then s' else after c s'
  end.

Definition Result_map {A B} (f : A -> B) (r : Result A) : Result B :=
  match r with
  | Ok a => Ok (f a)
  | Err e => Err e
  end.

End Js.
Export Js.

(** ** Asynchronous functions

    A handler is a tree of the effects it performs in order: console
    output, state setters, and the calls it awaits, each with the rest of
    the function as continuation. *)

Module Async.

Inductive Body : Type :=
| NoBody
| JsonStringify (o : obj).

Record Request : Type := mkRequest {
  req_url : string;
  req_method : string;
  req_headers : list (string * jsval);
  req_body : Body;
  req_credentials : option string
}.

(** What [await fetch(..)] followed by [await res.json()] can give: the
    fetch promise rejects, or a response arrives with a status and a body
    that parses to a JSON object ([None] when it does not parse). *)
Inductive FetchResult : Type :=
| Rejected
| Response (status : Z) (json : option obj).

Inductive Proc (U A : Type) : Type :=
| Ret (a : A)
| Throw (e : JsError)
| Log (args : list jsval) (k : Proc U A)
| SetState (u : U) (k : Proc U A)
| Fetch (req : Request) (k : FetchResult -> Proc U A)
| StoreBlob (content : jsval) (k : option string -> Proc U A).
Arguments Ret {U A} a.
Arguments Throw {U A} e.
Arguments Log {U A} args k.
Arguments SetState {U A} u k.
Arguments Fetch {U A} req k.
Arguments StoreBlob {U A} content k.

Fixpoint bind {U A B} (p : Proc U A) (f : A -> Proc U B) : Proc U B :=
  match p with
  | Ret a => f a
  | Throw e => Throw e
  | Log args k => Log args (bind k f)
  | SetState u k => SetState u (bind k f)
  | Fetch req k => Fetch req (fun r => bind (k r) f)
  | StoreBlob c k => StoreBlob c (fun r => bind (k r) f)
  end.

Notation "'let*' x ':=' p 'in' q" := (bind p (fun x => q))
  (at level 10, x name, p at level 100, q at level 200) : stdpp_scope.

(** Visible effects, in order. *)
Inductive Effect (U : Type) : Type :=
| ELog (args : list jsval)
| ESet (u : U)
| EFetch (req : Request)
| EStoreBlob (content : jsval).
Arguments ELog {U} args.
Arguments ESet {U} u.
Arguments EFetch {U} req.
Arguments EStoreBlob {U} content.

(** How a run of a handler ends. *)
Inductive Outcome (U A : Type) : Type :=
| Returned (a : A)
| Thrown (e : JsError)
| AwaitingFetch (req : Request) (k : FetchResult -> Proc U A)
| AwaitingStore (content : jsval) (k : option string -> Proc U A).
Arguments Returned {U A} a.
Arguments Thrown {U A} e.
Arguments AwaitingFetch {U A} req k.
Arguments AwaitingStore {U A} content k.

Section Run.
Context {U S A : Type}.
Variable apply : U -> S -> S.

(** Run up to the first [await] (or to the end): the synchronous part. *)
Fixpoint run_sync (p : Proc U A) (st : S) : S * list (Effect U) * Outcome U A :=
  match p with
  | Ret a => (st, [], Returned a)
  | Throw e => (st, [], Thrown e)
  | Log args k =>
      let '(st', tr, o) := run_sync k st in (st', ELog args :: tr, o)
  | SetState u k =>
      let '(st', tr, o) := run_sync k (apply u st) in (st', ESet u :: tr, o)
  | Fetch req k => (st, [EFetch req], AwaitingFetch req k)
  | StoreBlob c k => (st, [EStoreBlob c], AwaitingStore c k)
  end.

(** The answers the awaited calls receive, in order. *)
Inductive Answer : Type :=
| AFetch (r : FetchResult)
| AStore (cid : option string).

(** Run to the end against the answers of the awaited calls.  [None]
    when the answers do not fit the calls (too few, or of the wrong
    kind). *)
Fixpoint run (p : Proc U A) (answers : list Answer) (st : S)
  : option (S * list (Effect U) * Result A) :=
  match p with
  | Ret a => Some (st, [], Ok a)
  | Throw e => Some (st, [], Err e)
  | Log args k =>
      '(st', tr, r) ← run k answers st; Some (st', ELog args :: tr, r)
  | SetState u k =>
      '(st', tr, r) ← run k answers (apply u st); Some (st', ESet u :: tr, r)
  | Fetch req k =>
      match answers with
      | AFetch a :: rest =>
          '(st', tr, r) ← run (k a) rest st; Some (st', EFetch req :: tr, r)
      | _ => None
      end
  | StoreBlob c k =>
      match answers with
      | AStore a :: rest =>
          '(st', tr, r) ← run (k a) rest st; Some (st', EStoreBlob c :: tr, r)
      | _ => None
      end
  end.
End Run.

(** The value a function without [await] returns, or the error it throws. *)
Fixpoint result_of {U A} (p : Proc U A) : option (Result A) :=
  match p with
  | Ret a => Some (Ok a)
  | Throw e => Some (Err e)
  | Log _ k => result_of k
  | SetState _ k => result_of k
  | Fetch _ _ => None
  | StoreBlob _ _ => None
  end.

(** The state updates and the requests of a trace, in order. *)
Definition sets {U} (tr : list (Effect U)) : list U :=
  omap (fun e => match e with ESet u => Some u | _ => None end) tr.

Definition fetches {U} (tr : list (Effect U)) : list Request :=
  omap (fun e => match e with EFetch req => Some req | _ => None end) tr.

(** Functions that only write to the console before they return or
    throw, and what they write. *)
Fixpoint only_logs {U A} (p : Proc U A) : bool :=
  match p with
  | Ret _ | Throw _ => true
  | Log _ k => only_logs k
  | _ => false
  end.

Fixpoint logs {U A} (p : Proc U A) : list (list jsval) :=
  match p with
  | Log args k => args :: logs k
  | _ => []
  end.

(** A trace in which a state update comes before a request: the shape of
    an optimistic update. *)
Definition updates_before_request {U} (tr : list (Effect U)) : Prop :=
  exists pre u post req, tr = pre ++ ESet u :: post /\ EFetch req ∈ post.

End Async.
Export Async.

(** ** utils.js *)

Module Utils.
Section Utils.
(** The platform's [decodeURIComponent]; it throws [URIError] on a
    malformed escape sequence. *)
Variable decodeURIComponent : string -> Result string.

(** ToString of the argument of [decodeURIComponent] when the indexed
    array element is missing. *)
Definition element_to_string (o : option string) : string :=
  match o with
  | Some s => s
  | None => "undefined"
  end.

Definition getCookie {U} (document_cookie : string) (name : string) : Proc U jsval :=
  if negb (truthy (JStr document_cookie)) then
    Log [JStr "could not find cookie"] (Ret JNull)
  else
    Log [JStr "doc cookie split "; JStr document_cookie]
    (let xsrfCookies :=
       filter (fun c => startsWith c (name +:+ "=") = true)
              (map trim (split ";" document_cookie)) in
     match xsrfCookies with
     | [] => Log [JStr "cookies length was equal to 0"] (Ret JNull)
     | c0 :: _ =>
         match decodeURIComponent (element_to_string (split "=" c0 !! 1%nat)) with
         | Ok v => Ret (JStr v)
         | Err e => Throw e
         end
     end).

(** The entries of the cookie string as [getCookie] looks at them. *)
Definition entries (document_cookie : string) : list string :=
  map trim (split ";" document_cookie).

(** The part of an entry between its first [=] and the next [=] (or the
    end of the entry). *)
Definition value_segment (entry : string) : string :=
  before "=" (after "=" entry).

End Utils.
End Utils.

(** ** The cookie string

    [document.cookie] as the browser builds it: the [name=value] pairs of
    the cookies in scope, joined by a semicolon and a space.  Names and
    values are tokens: they hold no semicolon, no equals sign and no white
    space. *)

Module CookieJar.

Fixpoint all_chars (P : ascii -> bool) (s : string) : bool :=
  match s with
  | EmptyString => true
  | String c s' => P c && all_chars P s'
  end.

Definition token_char (c : ascii) : bool :=
  negb (bool_decide (c = ";"%char)) && negb (bool_decide (c = "="%char))
  && negb (is_white_space c).

Definition token (s : string) : bool := all_chars token_char s.

Definition no_space (s : string) : bool :=
  all_chars (fun c => negb (is_white_space c)) s.

Definition pair_entry (p : string * string) : string := p.1 +:+ "=" +:+ p.2.

Fixpoint cookie_string (jar : list (string * string)) : string :=
  match jar with
  | [] => ""
  | p :: rest =>
      match rest with
      | [] => pair_entry p
      | _ :: _ => pair_entry p +:+ "; " +:+ cookie_string rest
      end
  end.

(** The value of the first cookie of the jar with the given name. *)
Fixpoint first_value (name : string) (jar : list (string * string)) : option string :=
  match jar with
  | [] => None
  | p :: rest => if bool_decide (p.1 = name) then Some p.2 else first_value name rest
  end.

Definition well_formed (jar : list (string * string)) : Prop :=
  Forall (fun p => token p.1 = true /\ token p.2 = true) jar.

End CookieJar.

(** ** components/EnsAndAddress.js *)

Module EnsAndAddress.

(** The fields of the result of [useEnsName] that the component reads. *)
Record EnsName : Type := mkEnsName {
  data : jsval;
  isError : bool;
  isLoading : bool
}.

(** The rendered element: text, an embedded expression [{v}], or a
    [span] with its [className] and [onClick] attributes ([undefined] when
    the attribute is not written).  The ellipsis that ends the loading
    marker is kept as the bytes of its UTF-8 encoding. *)
#[local] Unset Elimination Schemes.
Inductive Node : Type :=
| Text (s : string)
| Expr (v : jsval)
| Span (className onClick : jsval) (children : list Node).
#[local] Set Elimination Schemes.

(** [&nbsp;(], the text that opens the inner span. *)
Definition nbsp_paren : string := String "160"%char "(".

(** [getAbbrAddress]: [address.substr(2,5) + "..." + props.address.substr(37,5)].
    Calling [substr] on a value that is not a string throws. *)
Definition getAbbrAddress (props : obj) (address : jsval) : Result string :=
  match address with
  | JStr a =>
      match get props "address" with
      | JStr pa => Ok (substr 2 5 a +:+ "..." +:+ substr 37 5 pa)
      | _ => Err TypeError
      end
  | _ => Err TypeError
  end.

(** The guard of the first return, [! "address" in props], as JavaScript
    parses it: [(!"address") in props]. *)
Definition missing_address_guard (props : obj) : bool :=
  js_in (js_not (JStr "address")) props.

Definition EnsAndAddress (props : obj) (ens : EnsName) : Result Node :=
  if missing_address_guard props then
    Ok (Span JUndefined JUndefined [Text "Missing address"])
  else if isLoading ens then
    Ok (Span JUndefined JUndefined [Text "Fetching ENS name…"])
  else if isError ens then
    Ok (Span JUndefined JUndefined [Text "Error fetching ENS name"])
  else if strict_neq (data ens) JNull then
    match getAbbrAddress props (get props "address") with
    | Ok abbr =>
        Ok (Span (get props "className") (get props "onClick")
              [Expr (data ens);
               Span (JStr "fs-6") JUndefined [Text nbsp_paren; Text abbr; Text ")"]])
    | Err e => Err e
    end
  else
    match getAbbrAddress props (get props "address") with
    | Ok abbr =>
        Ok (Span (get props "className") (get props "onClick") [Text abbr])
    | Err e => Err e
    end.

End EnsAndAddress.

(** ** The profile page (index.js, function [Profile]) *)

Module Profile.

(** What one render of the component closes over: the two pieces of
    state, the route ([useParams], [useLocation]) and the [data] field of
    the result of [useEnsAvatar].  Every function the component defines
    reads these values as they were in the render that created it. *)
Record Render : Type := mkRender {
  profileData : obj;
  pfpUrl : jsval;
  address : string;
  routerKey : string;
  ensAvatar_data : jsval
}.

#[global] Instance Render_eq_dec : EqDecision Render.
Proof. solve_decision. Defined.

Inductive Update : Type :=
| SetProfileData (d : obj)
| SetPfpUrl (v : jsval).

Definition apply (u : Update) (r : Render) : Render :=
  match u with
  | SetProfileData d =>
      mkRender d (pfpUrl r) (address r) (routerKey r) (ensAvatar_data r)
  | SetPfpUrl v =>
      mkRender (profileData r) v (address r) (routerKey r) (ensAvatar_data r)
  end.

(** The avatar part of the JSX: [Blockies] with [seed={address}] when
    [pfpUrl === null], else [Image] with [src={pfpUrl}]. *)
Inductive Avatar : Type :=
| Blockies (seed : string)
| Image (src : jsval).

Definition avatar (r : Render) : Avatar :=
  if strict_eq (pfpUrl r) JNull then Blockies (address r) else Image (pfpUrl r).

(** A fetch that has not settled yet, with the rest of the handler that
    awaits it. *)
Abbreviation Pending := (Request * (FetchResult -> Proc Update unit))%type.

Section Handlers.
Variable baseAPI : string.
Variable decodeURIComponent : string -> Result string.

Definition determineProfilePic (r : Render) : Proc Update unit :=
  if js_in (JStr "image") (profileData r)
     && strict_neq (get (profileData r) "image") (JStr "")
  then SetState (SetPfpUrl (get (profileData r) "image")) (Ret tt)
  else SetState (SetPfpUrl (ensAvatar_data r)) (Ret tt).

(** The response object passed to [console.log]. *)
Definition res_object : jsval := JRef 0.

Definition fetchProfile (r : Render) : Proc Update unit :=
  let url := baseAPI +:+ "/" +:+ address r +:+ "/profile/" in
  Fetch (mkRequest url "GET" [] NoBody None) (fun res =>
    match res with
    | Rejected => Throw NetworkError
    | Response status json =>
        if status =? 200 then
          match json with
          | None => Throw SyntaxError
          | Some data =>
              SetState (SetProfileData data)
                (let* _ := determineProfilePic r in Ret tt)
          end
        else if status =? 404 then
          Log [JStr "user has no profile"] (Ret tt)
        else
          Log [JStr "unhandled case: "; res_object] (Ret tt)
    end).

Definition handleFollow (r : Render) (document_cookie : string) : Proc Update unit :=
  let url := baseAPI +:+ "/" +:+ address r +:+ "/follow/" in
  let* csrf := Utils.getCookie decodeURIComponent document_cookie "csrftoken" in
  Fetch (mkRequest url "POST" [("X-CSRFTOKEN", csrf)] NoBody (Some "include"))
    (fun res =>
       match res with
       | Rejected => Throw NetworkError
       | Response _ _ => Ret tt
       end).

(** The body of the second effect, with dependencies [[pfpUrl]]. *)
Definition pfpUrl_effect (r : Render) : Proc Update unit :=
  if strict_eq (pfpUrl r) (ensAvatar_data r) then Ret tt
  else if strict_neq (ensAvatar_data r) (JStr "")
       then SetState (SetPfpUrl (ensAvatar_data r)) (Ret tt)
       else Ret tt.

(** *** The component over time

    The current render and the fetches that have not settled yet, each
    with the rest of the handler that awaits it.  That continuation keeps
    the render in which the handler was created. *)
Record World : Type := mkWorld {
  cur : Render;
  inflight : list Pending
}.

(** The state after the synchronous part of [p]. *)
Definition state_after (p : Proc Update unit) (r : Render) : Render :=
  (run_sync apply p r).1.1.

(** The fetch a handler is left waiting for, if any. *)
Definition awaited (p : Proc Update unit) (r : Render) : list Pending :=
  match (run_sync apply p r).2 with
  | AwaitingFetch req k => [(req, k)]
  | _ => []
  end.

(** The effects that run after render [r] was committed, [prev] being the
    render before it: the first effect (dependencies
    [[routerLocation.key]]) starts [fetchProfile], the second
    (dependencies [[pfpUrl]]) runs [pfpUrl_effect]. *)
Definition run_effects (prev r : Render) (fl : list Pending) : World :=
  let fl' := if bool_decide (routerKey r = routerKey prev) then fl
             else fl ++ awaited (fetchProfile r) r in
  let r' := if bool_decide (pfpUrl r = pfpUrl prev) then r
            else state_after (pfpUrl_effect r) r in
  mkWorld r' fl'.

(** After a batch of updates turned render [prev] into [r]: nothing is
    rendered when nothing changed; else [r] is rendered and its effects
    run, and when they change the state the new state is rendered too (its
    effects change nothing more, see [run_effects_settled]).  Returns the
    renders committed, in order.  Renders are compared by content here;
    [step] adds the render that a [setProfileData] with a fresh object of
    equal content still causes. *)
Definition commit (prev r : Render) (fl : list Pending) : World * list Render :=
  if bool_decide (r = prev) then (mkWorld r fl, [])
  else
    let w := run_effects prev r fl in
    if bool_decide (cur w = r) then (w, [r])
    else (run_effects r (cur w) (inflight w), [r; cur w]).

(** Mounting at a route: the first render has the initial state
    ([useState({})], [useState(null)]), and both effects run after it.
    A later change of route keeps the component and its state: the first
    effect, keyed on [routerLocation.key], is what fetches again. *)
Definition first_render (addr key : string) (ens : jsval) : Render :=
  mkRender ∅ JNull addr key ens.

Definition mount (addr key : string) (ens : jsval) : World * list Render :=
  let r0 := first_render addr key ens in
  let fl := awaited (fetchProfile r0) r0 in
  let r1 := state_after (pfpUrl_effect r0) r0 in
  let '(w, rs) := commit r0 r1 fl in
  (w, r0 :: rs).

(** Whether the synchronous part of [p] calls [setProfileData].  Its
    argument is the object just parsed from a reply, which is never the
    object held in the state: React renders again even when the two have
    the same content. *)
Definition sets_profileData (p : Proc Update unit) (r : Render) : bool :=
  existsb (fun u => match u with SetProfileData _ => true | SetPfpUrl _ => false end)
    (sets (run_sync apply p r).1.2).

Inductive Event : Type :=
| Navigate (addr key : string) (ens : jsval)
    (* the route changes; the naming hook now reports [ens] *)
| Naming (ens : jsval)
    (* the naming hook reports new data for the current address *)
| Settle (i : nat) (res : FetchResult)
    (* the [i]-th fetch in flight settles *)
| ClickFollow (document_cookie : string).

Definition step (w : World) (e : Event) : World * list Render :=
  let r := cur w in
  match e with
  | Navigate addr key ens =>
      commit r (mkRender (profileData r) (pfpUrl r) addr key ens) (inflight w)
  | Naming ens =>
      commit r (mkRender (profileData r) (pfpUrl r) (address r) (routerKey r) ens)
        (inflight w)
  | Settle i res =>
      match inflight w !! i with
      | None => (w, [])
      | Some (_, k) =>
          let r' := state_after (k res) r in
          let c := commit r r' (delete i (inflight w)) in
          (c.1, if bool_decide (r' = r) && sets_profileData (k res) r
                then [r'] else c.2)
      end
  | ClickFollow c =>
      let p := handleFollow r c in
      commit r (state_after p r) (inflight w ++ awaited p r)
  end.

(** A run from a world: the final world and every render committed. *)
Fixpoint steps (w : World) (es : list Event) : World * list Render :=
  match es with
  | [] => (w, [])
  | e :: es' =>
      let '(w1, rs1) := step w e in
      let '(w2, rs2) := steps w1 es' in
      (w2, rs1 ++ rs2)
  end.

(** Mount, then the events. *)
Definition session (addr key : string) (ens : jsval) (es : list Event)
  : World * list Render :=
  let '(w0, rs0) := mount addr key ens in
  let '(w, rs) := steps w0 es in
  (w, rs0 ++ rs).

End Handlers.

(** Events that change the route. *)
Definition is_navigate (e : Event) : bool :=
  match e with
  | Navigate _ _ _ => true
  | _ => false
  end.

(** The values the naming hook reports in the course of the events. *)
Definition naming_values (es : list Event) : list jsval :=
  omap (fun e => match e with
                 | Navigate _ _ ens => Some ens
                 | Naming ens => Some ens
                 | _ => None
                 end) es.

(** A pending continuation that, run on a state whose [pfpUrl] is [v],
    leaves [pfpUrl] at [v] whatever the reply. *)
Definition keeps_pfpUrl (v : jsval) (p : Pending) : Prop :=
  forall res r, pfpUrl r = v -> pfpUrl (state_after (p.2 res) r) = v.

End Profile.

(** ** The profile forms (pages/CreateProfile) *)

(** The parent's [profile] state and its setter, called with a new value
    or with a function of the previous value. *)
Module Form.

Inductive Update : Type :=
| SetProfile (v : obj)
| SetProfileWith (f : obj -> obj).

Definition apply (u : Update) (profile : obj) : obj :=
  match u with
  | SetProfile v => v
  | SetProfileWith f => f profile
  end.

(** The profile state a handler leaves, run against the answers of the
    calls it awaits. *)
Definition after (p : Proc Update unit) (answers : list Answer) (profile : obj)
  : option obj :=
  (fun x => x.1.1) <$> run apply p answers profile.

End Form.

Module CreateProfileForm.
Section Handlers.
Variable baseAPI : string.
Variable decodeURIComponent : string -> Result string.

(** [handleChange]: [setProfile(prev => ({...prev, [name]: value}))]. *)
Definition handleChange (name : string) (value : jsval) : Proc Form.Update unit :=
  SetState (Form.SetProfileWith (fun prevValue => <[name := value]> prevValue)) (Ret tt).

(** The test of [handleSubmit], [formRes.status === 200 || 201]. *)
Definition posted (status : Z) : bool :=
  truthy (js_or (JBool (status =? 200)) (JNum 201)).

Definition handleSubmit (isConnected : bool) (address : string)
    (profile initialState : obj) (document_cookie : string) : Proc Form.Update unit :=
  if negb isConnected then Ret tt
  else
    let url := baseAPI +:+ "/" +:+ address +:+ "/profile/" in
    let* csrf := Utils.getCookie decodeURIComponent document_cookie "csrftoken" in
    Fetch (mkRequest url "POST"
             [("Content-Type", JStr "application/json"); ("X-CSRFTOKEN", csrf)]
             (JsonStringify profile) (Some "include"))
      (fun formRes =>
         match formRes with
         | Rejected => Throw NetworkError
         | Response status _ =>
             if posted status then
               Log [JStr "successfully posted data"]
                 (SetState (Form.SetProfile initialState) (Ret tt))
             else Log [JStr "error posting data"] (Ret tt)
         end).

End Handlers.

(** [checkForProfile]: [res] is what [getUser()] returned; the test is
    [res.profile === !null]. *)
Definition checkForProfile (res : obj) : Proc Form.Update unit :=
  if strict_eq (get res "profile") (js_not JNull) then
    Log [JStr "profile already exists"] (Ret tt)
  else Log [JStr "profile does not exist"] (Ret tt).

(** The [name] attributes of the inputs whose [onChange] is
    [handleChange], in the order of the JSX. *)
Definition field_names : list string :=
  ["bio"; "website"; "twitter"; "telegram"; "discord"; "opensea";
   "looksrare"; "snapshot"].

End CreateProfileForm.

Module FileUpload.
Section Handlers.
(** The bearer token written in the source. *)
Variable token : string.

(** The gateway prefix, [uri] in the source. *)
Definition uri : string := "https://www.ipfs.com/ipfs/".

(** [content] is the [Blob] built from the chosen file; [client.storeBlob]
    resolves to a content identifier or rejects. *)
Definition handleFileSubmit (isConnected : bool) (content : jsval)
  : Proc Form.Update unit :=
  if negb isConnected then Ret tt
  else
    StoreBlob content (fun stored =>
      match stored with
      | None => Throw ProviderError
      | Some cid =>
          Log [JStr "fetching nft storage api"]
            (Fetch (mkRequest "https://api.nft.storage/upload" "POST"
                      [("accept", JStr "application/json");
                       ("Content-Type", JStr "image/png");
                       ("Authorization", JStr ("Bearer " +:+ token))]
                      (JsonStringify {[ "data" := content ]}) None)
               (fun res =>
                  match res with
                  | Rejected => Throw NetworkError
                  | Response _ None => Throw SyntaxError
                  | Response _ (Some data) =>
                      if truthy (get data "ok") then
                        Log [JStr "uploaded to ipfs successfully"]
                          (let ipfs := uri +:+ cid in
                           SetState (Form.SetProfileWith
                                       (fun prevValue => <["image" := JStr ipfs]> prevValue))
                             (Ret tt))
                      else if negb (truthy (get data "ok")) then
                        Log [JStr "There was an error uploading your image to ipfs"]
                          (Ret tt)
                      else Ret tt
                  end))
      end).

End Handlers.
End FileUpload.

(** ** The home page (pages/Home/Home.js, function [Home]) *)

Module Home.

(** An object as the page holds it: its identity and its properties.
    The page never writes to the objects it is given, so two values are
    the same object exactly when they are equal; an object built anew with
    the properties of another has another identity.  This is the
    comparison React makes ([Object.is]) on the dependencies of an effect
    and on a new state. *)
Record Obj : Type := mkObj {
  ident : nat;
  fields : obj
}.

#[global] Instance Obj_eq_dec : EqDecision Obj.
Proof. solve_decision. Defined.

(** One render: what [useUser] returned ([None] for [null], else the user
    object) and the two pieces of state.  Between two [UserChange] events
    the hook returns the same object at every render. *)
Record Render : Type := mkRender {
  user : option Obj;
  profileData : option Obj;
  loading : bool
}.

#[global] Instance Render_eq_dec : EqDecision Render.
Proof. solve_decision. Defined.

Inductive Update : Type :=
| SetProfileData (v : option Obj)
| SetLoading (b : bool).

Definition apply (u : Update) (r : Render) : Render :=
  match u with
  | SetProfileData v => mkRender (user r) v (loading r)
  | SetLoading b => mkRender (user r) (profileData r) b
  end.

(** The value passed to [console.log] for [profileData]. *)
Definition logged (v : option Obj) : jsval :=
  match v with
  | None => JNull
  | Some o => JRef (ident o)
  end.

(** The first effect, with dependencies [[user]]. *)
Definition user_effect (r : Render) : Proc Update unit :=
  SetState (SetProfileData (user r))
    (Log [JStr "setProfileData to user"] (Ret tt)).

(** The second effect, with dependencies [[profileData]]. *)
Definition profileData_effect (r : Render) : Proc Update unit :=
  Log [JStr "profile data recognized"]
    (SetState (SetLoading false)
       (Log [JStr "profile data: "; logged (profileData r)] (Ret tt))).

(** The children of the container. *)
Inductive Element : Type :=
| PleaseSignIn
| Loading
| WalletFeed (profileData : Obj) (author : jsval) (user : Obj).

Definition view (r : Render) : list Element :=
  (match user r with
   | None => [PleaseSignIn]
   | Some _ => []
   end)
  ++ [match user r, profileData r, loading r with
      | Some u, Some pd, false => WalletFeed pd (get (fields u) "address") u
      | _, _, _ => Loading
      end].

Definition state_after (p : Proc Update unit) (r : Render) : Render :=
  (run_sync apply p r).1.1.

(** The effects of render [r], [prev] being the render before it; on the
    first render ([first]) both run.  Their updates are applied together. *)
Definition run_effects (first : bool) (prev r : Render) : Render :=
  let e1 := if first || negb (bool_decide (user r = user prev))
            then user_effect r else Ret tt in
  let e2 := if first || negb (bool_decide (profileData r = profileData prev))
            then profileData_effect r else Ret tt in
  state_after (let* _ := e1 in e2) r.

(** The renders committed after a batch turned [prev] into [r], each
    followed by its effects, until nothing changes.  Three rounds always
    suffice (see [settle_enough]). *)
Fixpoint settle (fuel : nat) (prev r : Render) : list Render :=
  match fuel with
  | O => []
  | S fuel' =>
      if bool_decide (r = prev) then []
      else r :: settle fuel' r (run_effects false prev r)
  end.

Definition commit (prev r : Render) : Render * list Render :=
  let rs := settle 3 prev r in (List.last rs prev, rs).

Definition first_render (u : option Obj) : Render := mkRender u None true.

Definition mount (u : option Obj) : Render * list Render :=
  let r0 := first_render u in
  let '(r, rs) := commit r0 (run_effects true r0 r0) in
  (r, r0 :: rs).

Inductive Event : Type :=
| UserChange (u : option Obj)
    (* [useUser] returns another value *)
| ChildSetsProfileData (v : option Obj).
    (* the feed calls the [setProfileData] it was given *)

Definition step (r : Render) (e : Event) : Render * list Render :=
  match e with
  | UserChange u => commit r (mkRender u (profileData r) (loading r))
  | ChildSetsProfileData v => commit r (mkRender (user r) v (loading r))
  end.

Fixpoint steps (r : Render) (es : list Event) : Render * list Render :=
  match es with
  | [] => (r, [])
  | e :: es' =>
      let '(r1, rs1) := step r e in
      let '(r2, rs2) := steps r1 es' in
      (r2, rs1 ++ rs2)
  end.

Definition session (u : option Obj) (es : list Event) : Render * list Render :=
  let '(r0, rs0) := mount u in
  let '(r, rs) := steps r0 es in
  (r, rs0 ++ rs).

(** The user and the profile data the page should end on: another user
    object, whatever its properties, replaces both; the feed replaces the
    profile data. *)
Definition track (s : option Obj * option Obj) (e : Event)
  : option Obj * option Obj :=
  match e with
  | UserChange u => if bool_decide (u = s.1) then s else (u, u)
  | ChildSetsProfileData v => (s.1, v)
  end.

End Home.

(** ** What the specification asks

    Definitions that follow the words of the specification, to be compared
    with the code above. *)

Module Spec.

(** The abbreviated address: five characters after the [0x] prefix, three
    dots, the last five characters of a 42-character address. *)
Definition abbreviated (address : string) : string :=
  substr 2 5 address +:+ "..." +:+ substr 37 5 address.

(** The label shown for an address without a naming record: the
    abbreviated address alone, in a span carrying the caller's attributes. *)
Definition fallback_label (props : obj) (address : string) : EnsAndAddress.Node :=
  EnsAndAddress.Span (get props "className") (get props "onClick")
    [EnsAndAddress.Text (abbreviated address)].

(** The label shown for an address with a naming record: the name, with
    the abbreviated address alongside. *)
Definition named_label (props : obj) (name : jsval) (address : string)
  : EnsAndAddress.Node :=
  EnsAndAddress.Span (get props "className") (get props "onClick")
    [EnsAndAddress.Expr name;
     EnsAndAddress.Span (JStr "fs-6") JUndefined
       [EnsAndAddress.Text EnsAndAddress.nbsp_paren;
        EnsAndAddress.Text (abbreviated address);
        EnsAndAddress.Text ")"]].

(** The marker of the first return of [EnsAndAddress]. *)
Definition missing_address : EnsAndAddress.Node :=
  EnsAndAddress.Span JUndefined JUndefined [EnsAndAddress.Text "Missing address"].

(** The marker shown when the naming hook reports an error. *)
Definition error_label : EnsAndAddress.Node :=
  EnsAndAddress.Span JUndefined JUndefined
    [EnsAndAddress.Text "Error fetching ENS name"].

(** The label follows the precedence name > abbreviated address: a name
    held by the lookup is shown with the abbreviated address alongside, and
    without a name the abbreviated address alone. *)
Definition label_follows_precedence (props : obj) (address : string)
    (ens : EnsAndAddress.EnsName) : Prop :=
  (forall name, EnsAndAddress.data ens = JStr name ->
     EnsAndAddress.EnsAndAddress props ens
     = Ok (named_label props (JStr name) address))
  /\ (EnsAndAddress.data ens = JNull ->
      EnsAndAddress.EnsAndAddress props ens = Ok (fallback_label props address)).

(** Absence of a naming record, whatever its cause, degrades to the
    fallback label. *)
Definition degrades_to_fallback (props : obj) (address : string)
    (ens : EnsAndAddress.EnsName) : Prop :=
  EnsAndAddress.EnsAndAddress props ens = Ok (fallback_label props address).

(** No render made while the naming source is still unresolved
    ([data] undefined) shows the generated identicon. *)
Definition no_generated_before_naming (renders : list Profile.Render) : Prop :=
  forall r, r ∈ renders ->
    Profile.ensAvatar_data r = JUndefined ->
    Profile.avatar r <> Profile.Blockies (Profile.address r).

(** A response to a request issued under an address that is no longer
    the displayed one leaves the displayed state as it was. *)
Definition stale_response_discarded (before after : Profile.World) : Prop :=
  Profile.cur after = Profile.cur before.

End Spec.

(** ** Scenarios used below *)

Module Scenario.
Import Profile.

(** The address of the page first shown, and the one navigated to. *)
Definition addrA : string := "0xaaaaaaaaaaaaaaaaaaaaaaaaaaaaaaaaaaaaaaaa".
Definition addrB : string := "0xbbbbbbbbbbbbbbbbbbbbbbbbbbbbbbbbbbbbbbbb".
Definition dataA : obj := {[ "bio" := JStr "profile of A" ]}.
Definition custom : obj := {[ "image" := JStr "https://img/X.png" ]}.

(** The page mounted at [addrA] with the naming lookup pending, then the
    route changed to [addrB]: two profile fetches are in flight. *)
Definition switched : World :=
  (session "/api" Ok addrA "k0" JUndefined [Navigate addrB "k1" JUndefined]).1.

(** The page of [addrB] with its profile loaded, on which the visitor
    clicks Follow, and what the click does when the server answers 500. *)
Definition followed_page : Render :=
  mkRender {[ "numFollowers" := JNum 3 ]} JNull addrB "k1" JNull.

Definition follow_trace : list (Effect Update) :=
  [ELog [JStr "doc cookie split "; JStr "csrftoken=t"];
   EFetch (mkRequest ("/api/" +:+ addrB +:+ "/follow/") "POST"
             [("X-CSRFTOKEN", JStr "t")] NoBody (Some "include"))].

(** A decoder that, like the platform's, throws on a lone percent sign. *)
Definition strict_decode (s : string) : Result string :=
  if bool_decide (s = "%") then Err URIError else Ok s.

(** A profile form that has been filled in, and its initial state. *)
Definition filled_form : obj := {[ "bio" := JStr "gm"; "socials" := JRef 1 ]}.
Definition empty_form : obj := {[ "bio" := JStr ""; "socials" := JRef 1 ]}.

End Scenario.

(** * Properties *)

(** ** Strings *)

Section StringFacts.

Lemma append_nil_l (s : string) : "" +:+ s = s.
Proof. reflexivity. Qed.

Lemma append_cons (a : ascii) (s t : string) :
  String a s +:+ t = String a (s +:+ t).
Proof. reflexivity. Qed.

Lemma split_unfold (sep : ascii) (s : string) :
  split sep s =
  before sep s :: (if occurs sep s then split sep (after sep s) else []).
Proof.
  induction s as [|a s IH]; simpl; [done|].
  case_bool_decide; [done|]. by rewrite IH.
Qed.

Lemma split_second (sep : ascii) (s : string) :
  split sep s !! 1%nat =
  if occurs sep s then Some (before sep (after sep s)) else None.
Proof.
  rewrite split_unfold. destruct (occurs sep s); [|done].
  simpl. by rewrite split_unfold.
Qed.

Lemma occurs_append (c : ascii) (s t : string) :
  occurs c (s +:+ t) = occurs c s || occurs c t.
Proof.
  induction s as [|a s IH]; [done|].
  rewrite append_cons. simpl. by case_bool_decide.
Qed.

Lemma prefix_occurs (p : string) (c : ascii) (s : string) :
  String.prefix (p +:+ String c "") s = true -> occurs c s = true.
Proof.
  revert s. induction p as [|a p IH]; intros [|b s]; try done.
  - rewrite append_nil_l. simpl. destruct (ascii_dec c b) as [->|]; [|done].
    by rewrite bool_decide_eq_true_2.
  - rewrite append_cons. simpl. destruct (ascii_dec a b) as [->|]; [|done].
    intros H. case_bool_decide; [done|]. by apply IH.
Qed.

Lemma before_append (c : ascii) (s t : string) :
  occurs c s = false -> before c (s +:+ String c t) = s.
Proof.
  induction s as [|a s IH].
  - intros _. rewrite append_nil_l. simpl. by rewrite bool_decide_eq_true_2.
  - rewrite append_cons. simpl. case_bool_decide; [done|].
    intros Hs. by rewrite IH.
Qed.

Lemma after_append (c : ascii) (s t : string) :
  occurs c s = false -> after c (s +:+ String c t) = t.
Proof.
  induction s as [|a s IH].
  - intros _. rewrite append_nil_l. simpl. by rewrite bool_decide_eq_true_2.
  - rewrite append_cons. simpl. case_bool_decide; [done|]. apply IH.
Qed.

End StringFacts.

(** ** utils.js: [getCookie] *)

Section CookieFacts.
Context {U : Type}.
Variable decodeURIComponent : string -> Result string.

Lemma getCookie_empty (name : string) :
  result_of (Utils.getCookie (U:=U) decodeURIComponent "" name) = Some (Ok JNull).
Proof. reflexivity. Qed.

Lemma getCookie_nonempty (document_cookie name : string) :
  document_cookie <> "" ->
  result_of (Utils.getCookie (U:=U) decodeURIComponent document_cookie name) =
  match filter (fun c => startsWith c (name +:+ "=") = true)
               (Utils.entries document_cookie) with
  | [] => Some (Ok JNull)
  | c0 :: _ =>
      Some (Result_map JStr
              (decodeURIComponent
                 (Utils.element_to_string (split "=" c0 !! 1%nat))))
  end.
Proof.
  intros Hne. unfold Utils.getCookie, Utils.entries. simpl.
  rewrite bool_decide_eq_false_2 by done. simpl.
  destruct (filter _ _) as [|c0 ?]; [done|].
  by destruct (decodeURIComponent _).
Qed.

Lemma filter_none_match (p : string) (l : list string) :
  Forall (fun e => startsWith e p = false) l ->
  filter (fun c => startsWith c p = true) l = [].
Proof.
  induction 1 as [|e l He _ IH]; [done|].
  rewrite filter_cons_False; [done|]. by rewrite He.
Qed.

Lemma filter_first_match (p : string) (skipped : list string) (e : string)
    (rest : list string) :
  Forall (fun e' => startsWith e' p = false) skipped ->
  startsWith e p = true ->
  exists tl, filter (fun c => startsWith c p = true) (skipped ++ e :: rest) = e :: tl.
Proof.
  intros Hs He. rewrite filter_app, (filter_none_match _ _ Hs).
  rewrite filter_cons_True by done. by eexists.
Qed.

Lemma entry_second_piece (name e : string) :
  startsWith e (name +:+ "=") = true ->
  Utils.element_to_string (split "=" e !! 1%nat) = Utils.value_segment e.
Proof.
  intros He. rewrite split_second.
  by rewrite (prefix_occurs name "=" e He).
Qed.

(** C9.  [getCookie name] returns [null] when [document.cookie] is empty
    or none of its trimmed entries starts with [name + "="]; otherwise it
    returns [decodeURIComponent] applied to the part of the first such
    entry between its first [=] and the next [=], so that a value
    containing [=] comes back cut at that character. *)
Theorem getCookie_first_value (document_cookie name : string) :
  ((document_cookie = "" \/
    Forall (fun e => startsWith e (name +:+ "=") = false)
           (Utils.entries document_cookie)) ->
   result_of (Utils.getCookie (U:=U) decodeURIComponent document_cookie name)
   = Some (Ok JNull))
  /\
  (forall skipped e rest,
     document_cookie <> "" ->
     Utils.entries document_cookie = skipped ++ e :: rest ->
     Forall (fun e' => startsWith e' (name +:+ "=") = false) skipped ->
     startsWith e (name +:+ "=") = true ->
     result_of (Utils.getCookie (U:=U) decodeURIComponent document_cookie name)
     = Some (Result_map JStr (decodeURIComponent (Utils.value_segment e)))
     /\
     forall v w,
       e = name +:+ "=" +:+ v +:+ "=" +:+ w ->
       occurs "=" name = false ->
       occurs "=" v = false ->
       result_of (Utils.getCookie (U:=U) decodeURIComponent document_cookie name)
       = Some (Result_map JStr (decodeURIComponent v))).
Proof.
  split.
  - intros [-> | Hnone]; [apply getCookie_empty|].
    destruct (decide (document_cookie = "")) as [->|Hne]; [apply getCookie_empty|].
    rewrite getCookie_nonempty by done.
    by rewrite (filter_none_match _ _ Hnone).
  - intros skipped e rest Hne Hentries Hskipped He.
    assert (result_of (Utils.getCookie (U:=U) decodeURIComponent document_cookie name)
            = Some (Result_map JStr (decodeURIComponent (Utils.value_segment e))))
      as Hres.
    { rewrite getCookie_nonempty by done. rewrite Hentries.
      destruct (filter_first_match _ _ _ rest Hskipped He) as [tl ->].
      by rewrite (entry_second_piece name e He). }
    split; [exact Hres|].
    intros v w -> Hname Hv. rewrite Hres. do 3 f_equal.
    unfold Utils.value_segment.
    change ("=" +:+ v +:+ "=" +:+ w) with (String "="%char (v +:+ String "="%char w)).
    rewrite after_append by done. by rewrite before_append.
Qed.

End CookieFacts.

(** The cookie [sessionid=1; csrftoken=ab=cd] read with an identity decoder:
    the value of [csrftoken] comes back as [ab]. *)
Lemma getCookie_first_value_witness :
  result_of (Utils.getCookie (U:=unit) Ok "" "csrftoken") = Some (Ok JNull)
  /\ result_of (Utils.getCookie (U:=unit) Ok "sessionid=1; csrftoken=ab=cd" "csrftoken")
     = Some (Ok (JStr "ab")).
Proof.
  split.
  - apply (proj1 (getCookie_first_value (U:=unit) Ok "" "csrftoken")).
    left; reflexivity.
  - apply (proj2 (proj2 (getCookie_first_value (U:=unit) Ok
                           "sessionid=1; csrftoken=ab=cd" "csrftoken")
                    ["sessionid=1"] "csrftoken=ab=cd" []
                    ltac:(discriminate) eq_refl
                    ltac:(repeat constructor) eq_refl) "ab" "cd");
      reflexivity.
Defined.

(** ** index.js: the choice made by [determineProfilePic] *)

Section AvatarChoice.
Import Profile.

Lemma determineProfilePic_custom (r : Render) (v : jsval) :
  profileData r !! "image" = Some v ->
  v <> JStr "" ->
  determineProfilePic r = SetState (SetPfpUrl v) (Ret tt).
Proof.
  intros Himg Hv. unfold determineProfilePic, js_in, get, strict_neq, strict_eq.
  simpl. rewrite Himg. simpl.
  by rewrite bool_decide_eq_false_2.
Qed.

Lemma determineProfilePic_no_custom (r : Render) :
  profileData r !! "image" = None \/ profileData r !! "image" = Some (JStr "") ->
  determineProfilePic r = SetState (SetPfpUrl (ensAvatar_data r)) (Ret tt).
Proof.
  intros Himg. unfold determineProfilePic, js_in, get, strict_neq, strict_eq.
  simpl. by destruct Himg as [-> | ->].
Qed.

Lemma avatar_generated_iff (r : Render) :
  avatar r = Blockies (address r) <-> pfpUrl r = JNull.
Proof.
  unfold avatar, strict_eq. case_bool_decide; split; congruence.
Qed.

End AvatarChoice.

(** ** components/EnsAndAddress.js *)

Section LabelFacts.
Import EnsAndAddress.

Lemma guard_is_key_false (props : obj) :
  missing_address_guard props = bool_decide (is_Some (props !! "false")).
Proof. reflexivity. Qed.

Lemma guard_false (props : obj) :
  props !! "false" = None -> missing_address_guard props = false.
Proof.
  intros H. rewrite guard_is_key_false, H.
  apply bool_decide_eq_false_2. by intros [? ?].
Qed.

Lemma getAbbrAddress_string (props : obj) (a : string) :
  props !! "address" = Some (JStr a) ->
  getAbbrAddress props (get props "address") = Ok (Spec.abbreviated a).
Proof. intros H. unfold getAbbrAddress, get. by rewrite H. Qed.

Lemma getAbbrAddress_undefined (props : obj) :
  getAbbrAddress props JUndefined = Err TypeError.
Proof. reflexivity. Qed.

Lemma getAbbrAddress_dots (props : obj) (v : jsval) (abbr : string) :
  getAbbrAddress props v = Ok abbr -> occurs "." abbr = true.
Proof.
  unfold getAbbrAddress. destruct v; try done.
  destruct (get props "address"); try done.
  intros [= <-]. rewrite !occurs_append. simpl. apply orb_true_r.
Qed.

(** C10.  For a props object without a key named [false], the guard
    [! "address" in props] is false, so the component never returns the
    "Missing address" marker; when [props.address] is absent and the naming
    hook is neither loading nor in error, [getAbbrAddress] is called on
    [undefined] and throws. *)
Theorem guard_never_catches (props : obj) :
  props !! "false" = None ->
  missing_address_guard props = false
  /\ (forall ens, EnsAndAddress props ens <> Ok Spec.missing_address)
  /\ (props !! "address" = None ->
      get props "address" = JUndefined
      /\ getAbbrAddress props (get props "address") = Err TypeError
      /\ forall ens, isLoading ens = false -> isError ens = false ->
           EnsAndAddress props ens = Err TypeError).
Proof.
  intros Hfalse. pose proof (guard_false props Hfalse) as Hguard.
  split; [exact Hguard|]. split.
  - intros ens. unfold EnsAndAddress. rewrite Hguard.
    destruct (isLoading ens); [done|]. destruct (isError ens); [done|].
    destruct (strict_neq (data ens) JNull);
      destruct (getAbbrAddress props (get props "address")) as [abbr|] eqn:Habbr;
      try done.
    intros [= _ _ ->]. by apply getAbbrAddress_dots in Habbr.
  - intros Haddr.
    assert (get props "address" = JUndefined) as Hget
      by (unfold get; by rewrite Haddr).
    split; [exact Hget|]. rewrite Hget. split; [reflexivity|].
    intros ens Hl He. unfold EnsAndAddress.
    rewrite Hguard, Hl, He, Hget, getAbbrAddress_undefined.
    by destruct (strict_neq _ _).
Qed.

(** Props that carry a class name but no address, with the hook settled. *)
Lemma guard_never_catches_witness :
  missing_address_guard {[ "className" := JStr "fw-bold" ]} = false
  /\ EnsAndAddress {[ "className" := JStr "fw-bold" ]}
       (mkEnsName JUndefined false false) = Err TypeError.
Proof.
  pose proof (guard_never_catches {[ "className" := JStr "fw-bold" ]} eq_refl)
    as (Hg & _ & Hthrow).
  split; [exact Hg|].
  destruct (Hthrow eq_refl) as (_ & _ & Hens).
  apply Hens; reflexivity.
Defined.

(** C7, as the code has it.  With the naming lookup settled without
    error (the hook neither loading nor in error), the label follows the
    precedence name > abbreviated address: a name is shown with the
    abbreviated address alongside, and without a name ([data] null) the
    abbreviated address alone, which is a function of the address string
    only.  With the lookup settled in error, the marker "Error fetching ENS
    name" is shown instead, whether or not a name is held. *)
Theorem label_precedence (props : obj) (a : string) (ens : EnsName) :
  props !! "false" = None ->
  props !! "address" = Some (JStr a) ->
  isLoading ens = false ->
  (isError ens = false -> Spec.label_follows_precedence props a ens)
  /\ (isError ens = true -> EnsAndAddress props ens = Ok Spec.error_label).
Proof.
  intros Hfalse Haddr Hl. unfold Spec.label_follows_precedence, EnsAndAddress.
  rewrite (guard_false _ Hfalse), Hl, (getAbbrAddress_string _ _ Haddr).
  split.
  - intros ->. split.
    + intros name ->. reflexivity.
    + intros ->. reflexivity.
  - intros ->. reflexivity.
Qed.

Lemma label_precedence_witness :
  EnsAndAddress {[ "address" := JStr "0x1234567890abcdef1234567890abcdef12345678" ]}
    (mkEnsName (JStr "blockso.eth") false false)
  = Ok (Span JUndefined JUndefined
          [Expr (JStr "blockso.eth");
           Span (JStr "fs-6") JUndefined
             [Text nbsp_paren; Text "12345...45678"; Text ")"]])
  /\ EnsAndAddress {[ "address" := JStr "0x1234567890abcdef1234567890abcdef12345678" ]}
       (mkEnsName JNull false false)
     = Ok (Span JUndefined JUndefined [Text "12345...45678"])
  /\ EnsAndAddress {[ "address" := JStr "0x1234567890abcdef1234567890abcdef12345678" ]}
       (mkEnsName (JStr "blockso.eth") true false)
     = Ok (Span JUndefined JUndefined [Text "Error fetching ENS name"]).
Proof.
  assert ((({[ "address" := JStr "0x1234567890abcdef1234567890abcdef12345678" ]} : obj)
             !! "false") = None) as Hf by (vm_compute; reflexivity).
  assert ((({[ "address" := JStr "0x1234567890abcdef1234567890abcdef12345678" ]} : obj)
             !! "address")
          = Some (JStr "0x1234567890abcdef1234567890abcdef12345678")) as Ha
    by (vm_compute; reflexivity).
  split; [|split].
  - exact (proj1 (proj1 (label_precedence _ _
                           (mkEnsName (JStr "blockso.eth") false false)
                           Hf Ha eq_refl) eq_refl) "blockso.eth" eq_refl).
  - exact (proj2 (proj1 (label_precedence _ _ (mkEnsName JNull false false)
                           Hf Ha eq_refl) eq_refl) eq_refl).
  - exact (proj2 (label_precedence _ _ (mkEnsName (JStr "blockso.eth") true false)
                    Hf Ha eq_refl) eq_refl).
Defined.

(** The claim C7 fails for a lookup settled in error: with a name held
    the label is the error marker, not the name, and with no name it is
    the error marker, not the abbreviated address. *)
Lemma label_error_hides_name :
  EnsAndAddress {[ "address" := JStr "0x1234567890abcdef1234567890abcdef12345678" ]}
    (mkEnsName (JStr "blockso.eth") true false) = Ok Spec.error_label
  /\ ~ Spec.label_follows_precedence
        {[ "address" := JStr "0x1234567890abcdef1234567890abcdef12345678" ]}
        "0x1234567890abcdef1234567890abcdef12345678"
        (mkEnsName (JStr "blockso.eth") true false)
  /\ ~ Spec.label_follows_precedence
        {[ "address" := JStr "0x1234567890abcdef1234567890abcdef12345678" ]}
        "0x1234567890abcdef1234567890abcdef12345678"
        (mkEnsName JNull true false).
Proof.
  split; [vm_compute; reflexivity|]. split.
  - intros [Hname _]. specialize (Hname "blockso.eth" eq_refl).
    vm_compute in Hname. discriminate.
  - intros [_ Hnull]. specialize (Hnull eq_refl).
    vm_compute in Hnull. discriminate.
Qed.

(** C6, as the code has it.  When the naming provider reports the address
    as unregistered (no error, [data] null) the label is the abbreviated
    address, and [determineProfilePic] on a profile without a custom image
    sets a null avatar, displayed as the generated identicon.  When the
    provider errors, the label component does not throw: it returns the
    marker "Error fetching ENS name" in place of the abbreviated address. *)
Theorem naming_absence_label (props : obj) (a : string) (ens : EnsName) :
  props !! "false" = None ->
  props !! "address" = Some (JStr a) ->
  isLoading ens = false ->
  (isError ens = true -> EnsAndAddress props ens = Ok Spec.error_label)
  /\ (isError ens = false -> data ens = JNull ->
      Spec.degrades_to_fallback props a ens)
  /\ (forall r : Profile.Render,
        Profile.ensAvatar_data r = JNull ->
        Profile.profileData r !! "image" = None
        \/ Profile.profileData r !! "image" = Some (JStr "") ->
        Profile.avatar (Profile.state_after (Profile.determineProfilePic r) r)
        = Profile.Blockies (Profile.address r)).
Proof.
  intros Hfalse Haddr Hl. unfold Spec.degrades_to_fallback, EnsAndAddress.
  rewrite (guard_false _ Hfalse), Hl, (getAbbrAddress_string _ _ Haddr).
  split; [by intros ->|]. split; [by intros -> ->|].
  intros r Hens Himg. rewrite (determineProfilePic_no_custom r Himg).
  unfold Profile.state_after, Profile.avatar. simpl. by rewrite Hens.
Qed.

Lemma naming_absence_label_witness :
  EnsAndAddress {[ "address" := JStr "0x1234567890abcdef1234567890abcdef12345678" ]}
    (mkEnsName JUndefined true false)
  = Ok (Span JUndefined JUndefined [Text "Error fetching ENS name"])
  /\ EnsAndAddress {[ "address" := JStr "0x1234567890abcdef1234567890abcdef12345678" ]}
       (mkEnsName JNull false false)
     = Ok (Span JUndefined JUndefined [Text "12345...45678"])
  /\ Profile.avatar
       (Profile.state_after
          (Profile.determineProfilePic
             (Profile.mkRender {[ "bio" := JStr "gm" ]} JUndefined "0xB" "k" JNull))
          (Profile.mkRender {[ "bio" := JStr "gm" ]} JUndefined "0xB" "k" JNull))
     = Profile.Blockies "0xB".
Proof.
  assert ((({[ "address" := JStr "0x1234567890abcdef1234567890abcdef12345678" ]} : obj)
             !! "false") = None) as Hf by (vm_compute; reflexivity).
  assert ((({[ "address" := JStr "0x1234567890abcdef1234567890abcdef12345678" ]} : obj)
             !! "address")
          = Some (JStr "0x1234567890abcdef1234567890abcdef12345678")) as Ha
    by (vm_compute; reflexivity).
  split; [|split].
  - exact (proj1 (naming_absence_label _ _ (mkEnsName JUndefined true false)
                    Hf Ha eq_refl) eq_refl).
  - exact (proj1 (proj2 (naming_absence_label _ _ (mkEnsName JNull false false)
                           Hf Ha eq_refl)) eq_refl eq_refl).
  - refine (proj2 (proj2 (naming_absence_label _ _ (mkEnsName JNull false false)
                            Hf Ha eq_refl))
              (Profile.mkRender {[ "bio" := JStr "gm" ]} JUndefined "0xB" "k" JNull)
              eq_refl (or_introl _)).
    vm_compute; reflexivity.
Defined.

(** The claim C6 fails when the provider errors: the label for an address
    whose lookup failed is the error marker, not the abbreviated address. *)
Lemma naming_error_not_fallback :
  EnsAndAddress {[ "address" := JStr "0x1234567890abcdef1234567890abcdef12345678" ]}
    (mkEnsName JUndefined true false) = Ok Spec.error_label
  /\ ~ Spec.degrades_to_fallback
        {[ "address" := JStr "0x1234567890abcdef1234567890abcdef12345678" ]}
        "0x1234567890abcdef1234567890abcdef12345678"
        (mkEnsName JUndefined true false).
Proof.
  split; [vm_compute; reflexivity|].
  unfold Spec.degrades_to_fallback. vm_compute. discriminate.
Qed.

End LabelFacts.

(** ** index.js: the profile page over time *)

Section ProfileFacts.
Import Profile.
Variable baseAPI : string.
Variable decodeURIComponent : string -> Result string.

Lemma pfpUrl_effect_cases (r : Render) :
  state_after (pfpUrl_effect r) r = r
  \/ (state_after (pfpUrl_effect r) r
      = mkRender (profileData r) (ensAvatar_data r) (address r) (routerKey r)
          (ensAvatar_data r)
      /\ pfpUrl r <> ensAvatar_data r).
Proof.
  unfold pfpUrl_effect, state_after, strict_eq, strict_neq.
  case_bool_decide; [by left|].
  destruct (negb _); [by right|by left].
Qed.

(** Once the second effect has run, running it again changes nothing. *)
Lemma pfpUrl_effect_settled (r : Render) :
  let r' := state_after (pfpUrl_effect r) r in
  state_after (pfpUrl_effect r') r' = r'.
Proof.
  destruct (pfpUrl_effect_cases r) as [Heq | [Heq _]]; simpl; rewrite Heq.
  - by rewrite Heq.
  - unfold pfpUrl_effect, state_after, strict_eq. simpl.
    by rewrite bool_decide_eq_true_2.
Qed.

Lemma pfpUrl_effect_keeps (r : Render) :
  let r' := state_after (pfpUrl_effect r) r in
  profileData r' = profileData r /\ address r' = address r
  /\ routerKey r' = routerKey r /\ ensAvatar_data r' = ensAvatar_data r.
Proof.
  destruct (pfpUrl_effect_cases r) as [Heq | [Heq _]]; simpl; by rewrite Heq.
Qed.

(** The effects of the render that the effects of [r] led to change
    nothing: [commit] has rendered everything there is to render. *)
Lemma run_effects_settled (prev r : Render) (fl : list Pending) :
  let w := run_effects baseAPI prev r fl in
  run_effects baseAPI r (cur w) (inflight w) = w.
Proof.
  unfold run_effects. simpl.
  set (r' := if bool_decide (pfpUrl r = pfpUrl prev) then r
             else state_after (pfpUrl_effect r) r).
  assert (routerKey r' = routerKey r) as Hk.
  { subst r'. case_bool_decide; [done|]. apply pfpUrl_effect_keeps. }
  assert (pfpUrl r' <> pfpUrl r -> state_after (pfpUrl_effect r') r' = r') as Hs.
  { subst r'. case_bool_decide; [done|]. intros _. apply pfpUrl_effect_settled. }
  rewrite (bool_decide_eq_true_2 _ Hk).
  case_bool_decide; [done|]. by rewrite Hs.
Qed.

Lemma commit_keeps (prev r : Render) (fl : list Pending) :
  let w := (commit baseAPI prev r fl).1 in
  profileData (cur w) = profileData r /\ address (cur w) = address r.
Proof.
  unfold commit. case_bool_decide; [done|].
  assert (profileData (cur (run_effects baseAPI prev r fl)) = profileData r
          /\ address (cur (run_effects baseAPI prev r fl)) = address r) as Hw.
  { unfold run_effects. simpl. case_bool_decide; [done|].
    destruct (pfpUrl_effect_keeps r) as (? & ? & _). done. }
  case_bool_decide; [done|]. cbv zeta. cbn [fst].
  pose proof (run_effects_settled prev r fl) as Hs. cbv zeta in Hs.
  by rewrite Hs.
Qed.

(** The first render of every session is the one with the initial state. *)
Lemma session_first_render (addr key : string) (ens : jsval) (es : list Event) :
  exists w rs,
    session baseAPI decodeURIComponent addr key ens es
    = (w, first_render addr key ens :: rs).
Proof.
  unfold session, mount.
  destruct (commit _ _ _ _) as [w0 rs0].
  destruct (steps _ _ _ _) as [w rs]. by eexists _, _.
Qed.

(** C1, as the code has it.  The page has no pending marker: a render
    shows the generated identicon keyed by the address exactly when
    [pfpUrl] is null, and an image whose source is [pfpUrl] otherwise.  The
    first render of every session has [pfpUrl] null, so the generated
    identicon is shown before either source has resolved, whatever the
    naming source supplies later. *)
Theorem first_render_generated (addr key : string) (ens : jsval) (es : list Event) :
  (exists w rs,
     session baseAPI decodeURIComponent addr key ens es
     = (w, first_render addr key ens :: rs))
  /\ avatar (first_render addr key ens) = Blockies addr
  /\ (forall r,
        (avatar r = Blockies (address r) <-> pfpUrl r = JNull)
        /\ (pfpUrl r <> JNull -> avatar r = Image (pfpUrl r))).
Proof.
  split; [apply session_first_render|]. split; [reflexivity|].
  intros r. split; [apply avatar_generated_iff|].
  intros Hne. unfold avatar, strict_eq. by rewrite bool_decide_eq_false_2.
Qed.

(** C3, as the code has it.  A 200 response to a profile fetch is applied
    when it arrives, whatever address is displayed by then: [profileData]
    becomes the data of the response and the displayed address stays.
    Nothing relates the render that issued the fetch to the current one. *)
Theorem profile_response_applied (w : World) (i : nat) (req : Request)
    (k : FetchResult -> Proc Update unit) (issued : Render) (data : obj) :
  inflight w !! i = Some (req, k) ->
  awaited (fetchProfile baseAPI issued) issued = [(req, k)] ->
  let w' := (step baseAPI decodeURIComponent w
               (Settle i (Response 200 (Some data)))).1 in
  req_url req = baseAPI +:+ "/" +:+ address issued +:+ "/profile/"
  /\ profileData (cur w') = data
  /\ address (cur w') = address (cur w).
Proof.
  intros Hi [= <- <-]. split; [reflexivity|].
  unfold step. rewrite Hi.
  destruct (commit_keeps (cur w)
              (state_after
                 (SetState (SetProfileData data)
                    (let* _ := determineProfilePic issued in Ret tt)) (cur w))
              (delete i (inflight w))) as [Hd Ha].
  simpl in *. rewrite Hd, Ha. clear Hd Ha.
  unfold state_after, determineProfilePic. simpl.
  by destruct (_ && _).
Qed.

Lemma commit_changed (prev r : Render) (fl : list Pending) :
  r <> prev -> (commit baseAPI prev r fl).1 = run_effects baseAPI prev r fl.
Proof.
  intros Hne. unfold commit. rewrite bool_decide_eq_false_2 by done.
  case_bool_decide; [done|]. cbn [fst].
  pose proof (run_effects_settled prev r fl) as Hs. by cbv zeta in Hs.
Qed.

Lemma pfpUrl_effect_overwrites (r : Render) (y : string) :
  ensAvatar_data r = JStr y -> y <> "" -> pfpUrl r <> JStr y ->
  pfpUrl (state_after (pfpUrl_effect r) r) = JStr y.
Proof.
  intros Hens Hy Hne.
  unfold pfpUrl_effect, state_after, strict_neq, strict_eq. rewrite Hens.
  rewrite (bool_decide_eq_false_2 (pfpUrl r = JStr y)) by done.
  rewrite (bool_decide_eq_false_2 (JStr y = JStr "")) by congruence.
  reflexivity.
Qed.

(** The effect replaces a custom avatar just chosen by
    [determineProfilePic] with the naming avatar. *)
Lemma effect_overwrites_custom (r : Render) (x y : string) (fl : list Pending) :
  profileData r !! "image" = Some (JStr x) ->
  x <> "" -> y <> "" -> x <> y ->
  ensAvatar_data r = JStr y ->
  pfpUrl r <> JStr x ->
  let chosen := state_after (determineProfilePic r) r in
  pfpUrl chosen = JStr x
  /\ pfpUrl (cur (commit baseAPI r chosen fl).1) = JStr y.
Proof.
  intros Himg Hx Hy Hxy Hens Hpfp.
  rewrite (determineProfilePic_custom r (JStr x) Himg) by congruence.
  cbv zeta. split; [reflexivity|].
  set (chosen := state_after _ r).
  assert (pfpUrl chosen = JStr x) as Hc by reflexivity.
  assert (ensAvatar_data chosen = JStr y) as He by (by rewrite <- Hens).
  rewrite commit_changed by (intros Heq; apply Hpfp; by rewrite <- Heq).
  unfold run_effects. cbn [cur].
  rewrite bool_decide_eq_false_2 by congruence.
  apply pfpUrl_effect_overwrites; congruence.
Qed.

End ProfileFacts.

Section ProfileRuns.
Import Profile Scenario.

Lemma profile_response_applied_witness :
  let w' := (step "/api" Ok switched (Settle 0 (Response 200 (Some dataA)))).1 in
  address (cur switched) = addrB
  /\ profileData (cur w') = dataA
  /\ address (cur w') = addrB.
Proof.
  split; [reflexivity|].
  refine (proj2 (profile_response_applied "/api" Ok switched 0 _ _
                   (first_render addrA "k0" JUndefined) dataA _ eq_refl)).
  reflexivity.
Defined.

(** The claim C3 fails: the response to the fetch issued for [addrA]
    arrives after the switch to [addrB] and changes the state displayed
    under [addrB]. *)
Lemma stale_profile_response_applied :
  let w' := (step "/api" Ok switched (Settle 0 (Response 200 (Some dataA)))).1 in
  (req_url <$> (fst <$> inflight switched))
  = ["/api/" +:+ addrA +:+ "/profile/"; "/api/" +:+ addrB +:+ "/profile/"]
  /\ address (cur switched) = addrB
  /\ address (cur w') = addrB
  /\ profileData (cur w') = dataA
  /\ ~ Spec.stale_response_discarded switched w'.
Proof.
  cbv zeta. repeat split; try (vm_compute; reflexivity).
  unfold Spec.stale_response_discarded. intros Heq.
  apply (f_equal (fun r => profileData r !! "bio")) in Heq.
  vm_compute in Heq. discriminate.
Qed.

(** The claim C1 fails: the profile answers first, the naming source
    supplies an avatar afterwards, and the first render, made while the
    naming source is unresolved, shows the generated identicon. *)
Lemma generated_shown_before_naming :
  ~ Spec.no_generated_before_naming
      (session "/api" Ok addrA "k0" JUndefined
         [Settle 0 (Response 200 (Some dataA));
          Naming (JStr "https://ens/Y.png")]).2.
Proof.
  intros H.
  destruct (session_first_render "/api" Ok addrA "k0" JUndefined
              [Settle 0 (Response 200 (Some dataA));
               Naming (JStr "https://ens/Y.png")]) as (w & rs & Hs).
  rewrite Hs in H.
  apply (H (first_render addrA "k0" JUndefined)); [left|reflexivity|reflexivity].
Qed.

(** C2 at the failing input: the profile has the custom avatar [X.png]
    and the naming source the avatar [Y.png].  On the first visit
    [determineProfilePic] runs on the state of the render that started the
    fetch, in which no profile was loaded yet, and picks the naming avatar;
    on a second visit it picks the custom avatar, and the effect on
    [pfpUrl] then replaces it with the naming avatar.  The page ends on
    [Y.png] both times. *)
Theorem custom_avatar_overwritten :
  avatar <$> (session "/api" Ok addrA "k0" (JStr "https://ens/Y.png")
                [Settle 0 (Response 200 (Some custom))]).2
  = [Blockies addrA; Image (JStr "https://ens/Y.png");
     Image (JStr "https://ens/Y.png")]
  /\
  avatar <$> (session "/api" Ok addrA "k0" (JStr "https://ens/Y.png")
                [Settle 0 (Response 200 (Some custom));
                 Navigate addrA "k1" (JStr "https://ens/Y.png");
                 Settle 0 (Response 200 (Some custom))]).2
  = [Blockies addrA; Image (JStr "https://ens/Y.png");
     Image (JStr "https://ens/Y.png"); Image (JStr "https://ens/Y.png");
     Image (JStr "https://img/X.png"); Image (JStr "https://ens/Y.png")].
Proof. split; vm_compute; reflexivity. Qed.

End ProfileRuns.

(** ** Handlers that read the cookie and then fetch *)

Section RunFacts.
Context {U S : Type}.
Variable apply : U -> S -> S.

(** A function that only logs, followed by the rest of a handler. *)
Lemma run_bind_logs {A B} (p : Proc U A) (f : A -> Proc U B)
    (answers : list Answer) (st : S) :
  only_logs p = true ->
  run apply (bind p f) answers st =
  match result_of p with
  | Some (Ok a) =>
      '(st', tr, r) ← run apply (f a) answers st;
      Some (st', (ELog <$> logs p) ++ tr, r)
  | Some (Err e) => Some (st, ELog <$> logs p, Err e)
  | None => None
  end.
Proof.
  induction p as [a|e|args k IH| | |]; simpl; try done.
  - intros _. by destruct (run apply (f a) answers st) as [[[??]?]|].
  - intros Hk. rewrite (IH Hk).
    destruct (result_of k) as [[a|e]|]; simpl; [|done..].
    by destruct (run apply (f a) answers st) as [[[??]?]|].
Qed.

Lemma sets_logs (l : list (list jsval)) : sets (U:=U) (ELog <$> l) = [].
Proof. by induction l. Qed.

Lemma fetches_logs (l : list (list jsval)) : fetches (U:=U) (ELog <$> l) = [].
Proof. by induction l. Qed.

Lemma sets_app (tr1 tr2 : list (Effect U)) : sets (tr1 ++ tr2) = sets tr1 ++ sets tr2.
Proof. apply omap_app. Qed.

Lemma fetches_app (tr1 tr2 : list (Effect U)) :
  fetches (tr1 ++ tr2) = fetches tr1 ++ fetches tr2.
Proof. apply omap_app. Qed.

(** A trace without state updates has none before a request. *)
Lemma no_sets_no_optimism (tr : list (Effect U)) :
  sets tr = [] -> ~ updates_before_request tr.
Proof.
  intros Hs (pre & u & post & req & -> & _).
  rewrite sets_app in Hs. simpl in Hs.
  by destruct (sets pre).
Qed.

End RunFacts.

Lemma getCookie_only_logs {U} (decodeURIComponent : string -> Result string)
    (document_cookie name : string) :
  only_logs (Utils.getCookie (U:=U) decodeURIComponent document_cookie name) = true.
Proof.
  unfold Utils.getCookie. destruct (negb _); [done|]. simpl.
  destruct (filter _ _); [done|]. by destruct (decodeURIComponent _).
Qed.

(** ** index.js: [handleFollow] *)

Section FollowFacts.
Import Profile.
Variable baseAPI : string.
Variable decodeURIComponent : string -> Result string.

(** A function that only logs returns or throws. *)
Lemma only_logs_result {U A} (p : Proc U A) :
  only_logs p = true -> exists r, result_of p = Some r.
Proof. induction p; simpl; try done; by eexists. Qed.

(** C4, as the code has it.  [handleFollow] first reads the [csrftoken]
    cookie.  When that read throws, the handler's promise rejects with the
    error thrown and nothing is sent.  Otherwise it sends one POST to
    [/{address}/follow/] with the value read as [X-CSRFTOKEN].  In every
    case it changes no local state, before or after the response: there is
    no optimistic update and nothing to revert.  A response with a failure
    status is ignored; once the request is sent, only a rejected fetch
    makes the promise reject.  The page has no unfollow handler. *)
Theorem handleFollow_posts_only (r : Render) (document_cookie : string) (st : Render) :
  let cookie_read :=
    result_of (Utils.getCookie (U:=Update) decodeURIComponent document_cookie
                 "csrftoken") in
  let request csrf :=
    mkRequest (baseAPI +:+ "/" +:+ address r +:+ "/follow/") "POST"
      [("X-CSRFTOKEN", csrf)] NoBody (Some "include") in
  (forall answers st' tr res,
     run apply (handleFollow baseAPI decodeURIComponent r document_cookie) answers st
     = Some (st', tr, res) ->
     st' = st /\ sets tr = [] /\ ~ updates_before_request tr)
  /\
  (forall csrf,
     cookie_read = Some (Ok csrf) ->
     (forall fr, exists tr,
        run apply (handleFollow baseAPI decodeURIComponent r document_cookie)
          [AFetch fr] st
        = Some (st, tr, match fr with
                        | Rejected => Err NetworkError
                        | Response _ _ => Ok tt
                        end)
        /\ fetches tr = [request csrf])
     /\ (forall answers st' tr res,
           run apply (handleFollow baseAPI decodeURIComponent r document_cookie)
             answers st
           = Some (st', tr, res) ->
           fetches tr = [request csrf]))
  /\
  (forall e,
     cookie_read = Some (Err e) ->
     forall answers, exists tr,
       run apply (handleFollow baseAPI decodeURIComponent r document_cookie)
         answers st
       = Some (st, tr, Err e)
       /\ fetches tr = [])
  /\
  (exists outcome, cookie_read = Some outcome).
Proof.
  cbv zeta. unfold handleFollow.
  pose proof (getCookie_only_logs (U:=Update) decodeURIComponent
                document_cookie "csrftoken") as Hlogs.
  split; [|split; [|split]].
  - intros answers st' tr res. rewrite (run_bind_logs apply) by done.
    destruct (result_of _) as [[csrf|e]|]; [| |done].
    + simpl. destruct answers as [|[fr|?] rest]; try done.
      destruct fr; simpl; intros [= <- <- <-];
        (split; [done|]);
        assert (forall l req, sets (U:=Update) ((ELog <$> l) ++ [EFetch req]) = [])
          as Hs by (intros; by rewrite sets_app, sets_logs);
        (split; [apply Hs | apply no_sets_no_optimism, Hs]).
    + intros [= <- <- <-]. split; [done|].
      split; [apply sets_logs | apply no_sets_no_optimism, sets_logs].
  - intros csrf Hcsrf. split.
    + intros fr. rewrite (run_bind_logs apply) by done. rewrite Hcsrf.
      simpl. destruct fr; simpl; eexists; (split; [reflexivity|]);
        by rewrite fetches_app, fetches_logs.
    + intros answers st' tr res. rewrite (run_bind_logs apply) by done.
      rewrite Hcsrf. simpl. destruct answers as [|[fr|?] rest]; try done.
      destruct fr; simpl; intros [= _ <- _]; by rewrite fetches_app, fetches_logs.
  - intros e He answers. rewrite (run_bind_logs apply) by done. rewrite He.
    eexists. split; [reflexivity|]. apply fetches_logs.
  - by apply only_logs_result.
Qed.

End FollowFacts.

Section FollowRuns.
Import Profile Scenario.

Lemma handleFollow_posts_only_witness :
  (exists tr,
     run apply (handleFollow "/api" Ok followed_page "csrftoken=t")
       [AFetch (Response 500 None)] followed_page
     = Some (followed_page, tr, Ok tt)
     /\ fetches tr
        = [mkRequest ("/api/" +:+ addrB +:+ "/follow/") "POST"
             [("X-CSRFTOKEN", JStr "t")] NoBody (Some "include")])
  /\ (exists tr,
        run apply (handleFollow "/api" strict_decode followed_page "csrftoken=%")
          [AFetch (Response 200 None)] followed_page
        = Some (followed_page, tr, Err URIError)
        /\ fetches tr = []).
Proof.
  split.
  - exact (proj1 (proj1 (proj2 (handleFollow_posts_only "/api" Ok followed_page
                                  "csrftoken=t" followed_page))
                    (JStr "t") eq_refl) (Response 500 None)).
  - exact (proj1 (proj2 (proj2 (handleFollow_posts_only "/api" strict_decode
                                  followed_page "csrftoken=%" followed_page)))
             URIError eq_refl [AFetch (Response 200 None)]).
Defined.

(** The claim C4 fails: a follow whose request the server answers with
    status 500 updates nothing before the request, and returns normally. *)
Lemma follow_without_optimistic_update :
  run apply (handleFollow "/api" Ok followed_page "csrftoken=t")
    [AFetch (Response 500 None)] followed_page
  = Some (followed_page, follow_trace, Ok tt)
  /\ ~ updates_before_request follow_trace.
Proof.
  split; [vm_compute; reflexivity|].
  apply no_sets_no_optimism. reflexivity.
Qed.

End FollowRuns.

(** ** pages/CreateProfile: [handleSubmit] and [handleFileSubmit] *)

Section FormFacts.

(** [status === 200 || 201] is truthy for every status: when the
    comparison is false the value of the expression is [201]. *)
Lemma posted_always (status : Z) : CreateProfileForm.posted status = true.
Proof.
  unfold CreateProfileForm.posted, js_or. simpl.
  by destruct (status =? 200).
Qed.

(** Whatever the status of the response, [handleSubmit] takes the branch
    that resets the form. *)
Lemma handleSubmit_always_resets (baseAPI : string)
    (decodeURIComponent : string -> Result string) (address : string)
    (profile initialState : obj) (document_cookie : string) (csrf : jsval)
    (status : Z) (json : option obj) :
  result_of (Utils.getCookie (U:=Form.Update) decodeURIComponent document_cookie
               "csrftoken") = Some (Ok csrf) ->
  exists tr,
    run Form.apply
      (CreateProfileForm.handleSubmit baseAPI decodeURIComponent true address
         profile initialState document_cookie)
      [AFetch (Response status json)] profile
    = Some (initialState, tr, Ok tt)
    /\ sets tr = [Form.SetProfile initialState].
Proof.
  intros Hcsrf. unfold CreateProfileForm.handleSubmit. simpl.
  rewrite (run_bind_logs Form.apply) by apply getCookie_only_logs.
  rewrite Hcsrf. simpl. rewrite posted_always. simpl.
  eexists. split; [reflexivity|].
  by rewrite sets_app, sets_logs.
Qed.

(** C5 at the failing input: the server answers the submission with
    status 500; the handler logs a success and resets the form to its
    initial state. *)
Theorem handleSubmit_resets_on_error :
  run Form.apply
    (CreateProfileForm.handleSubmit "/api" Ok true Scenario.addrA
       Scenario.filled_form Scenario.empty_form "csrftoken=t")
    [AFetch (Response 500 None)] Scenario.filled_form
  = Some (Scenario.empty_form,
          [ELog [JStr "doc cookie split "; JStr "csrftoken=t"];
           EFetch (mkRequest ("/api/" +:+ Scenario.addrA +:+ "/profile/") "POST"
                     [("Content-Type", JStr "application/json");
                      ("X-CSRFTOKEN", JStr "t")]
                     (JsonStringify Scenario.filled_form) (Some "include"));
           ELog [JStr "successfully posted data"];
           ESet (Form.SetProfile Scenario.empty_form)],
          Ok tt)
  /\ Scenario.empty_form <> Scenario.filled_form.
Proof.
  split; [vm_compute; reflexivity|].
  intros Heq. apply (f_equal (fun o : obj => o !! "bio")) in Heq.
  vm_compute in Heq. discriminate.
Qed.

Variable token : string.

(** C8.  With a wallet connected, when the storage provider returns a
    content identifier and the upload is answered with a body whose [ok] is
    truthy, the [image] field of the profile becomes the gateway prefix
    followed by the identifier and the other fields stay; when the store
    call rejects, the upload request rejects, its body does not parse or
    its [ok] is falsy, the profile is left unchanged. *)
Theorem upload_sets_image (content : jsval) (profile : obj) :
  let submit := FileUpload.handleFileSubmit token true content in
  (forall cid status data,
     truthy (get data "ok") = true ->
     exists tr,
       run Form.apply submit
         [AStore (Some cid); AFetch (Response status (Some data))] profile
       = Some (<["image" := JStr ("https://www.ipfs.com/ipfs/" +:+ cid)]> profile,
               tr, Ok tt))
  /\ (exists tr,
        run Form.apply submit [AStore None] profile
        = Some (profile, tr, Err ProviderError))
  /\ (forall cid, exists tr,
        run Form.apply submit [AStore (Some cid); AFetch Rejected] profile
        = Some (profile, tr, Err NetworkError))
  /\ (forall cid status, exists tr,
        run Form.apply submit [AStore (Some cid); AFetch (Response status None)]
          profile
        = Some (profile, tr, Err SyntaxError))
  /\ (forall cid status data,
        truthy (get data "ok") = false ->
        exists tr,
          run Form.apply submit
            [AStore (Some cid); AFetch (Response status (Some data))] profile
          = Some (profile, tr, Ok tt))
  /\ (forall answers profile' tr res,
        run Form.apply submit answers profile = Some (profile', tr, res) ->
        profile' = profile
        \/ exists cid status data rest,
             answers = AStore (Some cid) :: AFetch (Response status (Some data)) :: rest
             /\ truthy (get data "ok") = true
             /\ profile' = <["image" := JStr (FileUpload.uri +:+ cid)]> profile).
Proof.
  cbv zeta. unfold FileUpload.handleFileSubmit. simpl.
  split; [|split; [|split; [|split; [|split]]]].
  - intros cid status data ->. by eexists.
  - by eexists.
  - intros cid. by eexists.
  - intros cid status. by eexists.
  - intros cid status data ->. by eexists.
  - intros answers profile' tr res.
    destruct answers as [|[?|[cid|]] answers]; simpl; try done;
      [|intros [= <- _ _]; by left].
    destruct answers as [|[[|status [data|]]|?] rest]; simpl; try done;
      try (intros [= <- _ _]; by left).
    destruct (truthy (get data "ok")) eqn:Hok; simpl.
    + intros [= <- _ _]. right. by eexists cid, status, data, rest.
    + intros [= <- _ _]. by left.
Qed.

End FormFacts.

Lemma upload_sets_image_witness :
  exists tr,
    run Form.apply (FileUpload.handleFileSubmit "secret" true (JRef 1))
      [AStore (Some "bafkreiabc"); AFetch (Response 200 (Some {[ "ok" := JBool true ]}))]
      Scenario.filled_form
    = Some (<["image" := JStr "https://www.ipfs.com/ipfs/bafkreiabc"]> Scenario.filled_form,
            tr, Ok tt).
Proof.
  exact (proj1 (upload_sets_image "secret" (JRef 1) Scenario.filled_form)
           "bafkreiabc" 200 {[ "ok" := JBool true ]} eq_refl).
Defined.

(** * Further properties of the code *)

(** ** utils.js: reading a cookie back from the cookie string *)

Section CookieJarFacts.
Import CookieJar.
Context {U : Type}.
Variable decodeURIComponent : string -> Result string.

Lemma all_chars_append (P : ascii -> bool) (s t : string) :
  all_chars P (s +:+ t) = all_chars P s && all_chars P t.
Proof.
  induction s as [|a s IH]; [done|].
  rewrite append_cons. simpl. by rewrite IH, andb_assoc.
Qed.

Lemma all_chars_weaken (P Q : ascii -> bool) (s : string) :
  (forall c, P c = true -> Q c = true) ->
  all_chars P s = true -> all_chars Q s = true.
Proof.
  intros HPQ. induction s as [|a s IH]; [done|]. simpl.
  intros [Ha Hs]%andb_true_iff. by rewrite (HPQ _ Ha), IH.
Qed.

Lemma all_chars_no_char (P : ascii -> bool) (c : ascii) (s : string) :
  P c = false -> all_chars P s = true -> occurs c s = false.
Proof.
  intros Hc. induction s as [|a s IH]; [done|]. simpl.
  intros [Ha Hs]%andb_true_iff.
  case_bool_decide as Heq; [congruence|]. by apply IH.
Qed.

Lemma token_cons (c : ascii) (s : string) :
  token (String c s) = true -> token_char c = true /\ token s = true.
Proof. unfold token. simpl. by intros [? ?]%andb_true_iff. Qed.

Lemma token_char_facts (c : ascii) :
  token_char c = true ->
  c <> ";"%char /\ c <> "="%char /\ is_white_space c = false.
Proof.
  unfold token_char. intros [[H1 H2]%andb_true_iff H3]%andb_true_iff.
  apply negb_true_iff in H1, H2, H3.
  apply bool_decide_eq_false in H1, H2. done.
Qed.

Lemma token_no_space (s : string) : token s = true -> no_space s = true.
Proof.
  apply all_chars_weaken. unfold token_char. by intros c [_ ?]%andb_true_iff.
Qed.

Lemma token_no_semicolon (s : string) : token s = true -> occurs ";" s = false.
Proof. by apply all_chars_no_char. Qed.

Lemma token_no_equals (s : string) : token s = true -> occurs "=" s = false.
Proof. by apply all_chars_no_char. Qed.

Lemma trim_start_no_space (s : string) : no_space s = true -> trim_start s = s.
Proof.
  destruct s as [|c s]; [done|]. unfold no_space. simpl.
  intros [Hc _]%andb_true_iff. apply negb_true_iff in Hc. by rewrite Hc.
Qed.

Lemma trim_end_no_space (s : string) : no_space s = true -> trim_end s = s.
Proof.
  induction s as [|c s IH]; [done|]. unfold no_space in *. simpl.
  intros [Hc Hs]%andb_true_iff. apply negb_true_iff in Hc.
  rewrite (IH Hs). destruct s; [by rewrite Hc|done].
Qed.

Lemma entry_no_space (p : string * string) :
  token p.1 = true -> token p.2 = true -> no_space (pair_entry p) = true.
Proof.
  intros H1%token_no_space H2%token_no_space. unfold pair_entry, no_space in *.
  by rewrite !all_chars_append, H1, H2.
Qed.

Lemma entry_no_semicolon (p : string * string) :
  token p.1 = true -> token p.2 = true -> occurs ";" (pair_entry p) = false.
Proof.
  intros H1%token_no_semicolon H2%token_no_semicolon. unfold pair_entry.
  by rewrite !occurs_append, H1, H2.
Qed.

(** An entry is left as it is by [trim], and the space that follows a
    semicolon is removed. *)
Lemma trim_entry (pre : string) (p : string * string) :
  pre = "" \/ pre = " " ->
  token p.1 = true -> token p.2 = true ->
  trim (pre +:+ pair_entry p) = pair_entry p.
Proof.
  intros Hpre H1 H2. pose proof (entry_no_space p H1 H2) as Hns.
  unfold trim.
  assert (trim_start (pre +:+ pair_entry p) = pair_entry p) as ->.
  { destruct Hpre as [-> | ->].
    - rewrite append_nil_l. by apply trim_start_no_space.
    - change (" " +:+ pair_entry p) with (String " "%char (pair_entry p)).
      simpl. by apply trim_start_no_space. }
  by apply trim_end_no_space.
Qed.

Lemma split_absent (sep : ascii) (s : string) :
  occurs sep s = false -> split sep s = [s].
Proof.
  induction s as [|a s IH]; [done|]. simpl.
  case_bool_decide; [done|]. intros Hs. by rewrite IH.
Qed.

Lemma split_append (sep : ascii) (s t : string) :
  occurs sep s = false -> split sep (s +:+ String sep t) = s :: split sep t.
Proof.
  induction s as [|a s IH].
  - intros _. rewrite append_nil_l. simpl. by rewrite bool_decide_eq_true_2.
  - rewrite append_cons. simpl. case_bool_decide; [done|].
    intros Hs. by rewrite IH.
Qed.

Lemma append_assoc (s t u : string) : (s +:+ t) +:+ u = s +:+ t +:+ u.
Proof. induction s as [|a s IH]; [done|]. by rewrite !append_cons, IH. Qed.

(** The entries [getCookie] sees in a well-formed cookie string are the
    pairs of the jar, in order. *)
Lemma entries_cookie_string (pre : string) (jar : list (string * string)) :
  pre = "" \/ pre = " " ->
  well_formed jar -> jar <> [] ->
  map trim (split ";" (pre +:+ cookie_string jar)) = map pair_entry jar.
Proof.
  intros Hpre Hwf. revert pre Hpre.
  induction Hwf as [|p rest [H1 H2] Hrest IH]; [done|]. intros pre Hpre _.
  assert (occurs ";" (pre +:+ pair_entry p) = false) as Hsemi.
  { rewrite occurs_append, (entry_no_semicolon p H1 H2).
    by destruct Hpre as [-> | ->]. }
  destruct rest as [|q rest].
  - simpl. rewrite split_absent by done. simpl. by rewrite trim_entry.
  - change (cookie_string (p :: q :: rest))
      with (pair_entry p +:+ "; " +:+ cookie_string (q :: rest)).
    rewrite <- append_assoc.
    change ("; " +:+ cookie_string (q :: rest))
      with (String ";"%char (" " +:+ cookie_string (q :: rest))).
    rewrite split_append by done. rewrite map_cons.
    rewrite trim_entry by done.
    rewrite (IH " ") by (done || by right). done.
Qed.

Lemma prefix_cons (a b : ascii) (s t : string) :
  String.prefix (String a s) (String b t)
  = if bool_decide (a = b) then String.prefix s t else false.
Proof. simpl. destruct (ascii_dec a b); by case_bool_decide. Qed.

Lemma prefix_name (name n v : string) :
  token name = true -> token n = true ->
  startsWith (n +:+ "=" +:+ v) (name +:+ "=") = bool_decide (n = name).
Proof.
  unfold startsWith. revert n.
  change ("=" +:+ v) with (String "="%char v).
  change (String "="%char "") with ("=" : string).
  induction name as [|a name IH]; intros [|c n] Hname Hn.
  - rewrite !append_nil_l, prefix_cons.
    rewrite !bool_decide_eq_true_2 by done. by destruct v.
  - apply token_cons in Hn as [(_ & Hc & _)%token_char_facts _].
    rewrite append_nil_l, append_cons, prefix_cons.
    rewrite (bool_decide_eq_false_2 ("="%char = c)) by congruence.
    by rewrite bool_decide_eq_false_2.
  - apply token_cons in Hname as [(_ & Ha & _)%token_char_facts _].
    rewrite append_nil_l, append_cons, prefix_cons.
    rewrite (bool_decide_eq_false_2 (a = "="%char)) by congruence.
    by rewrite bool_decide_eq_false_2.
  - apply token_cons in Hname as [_ Hname]. apply token_cons in Hn as [_ Hn].
    rewrite !append_cons, prefix_cons. case_bool_decide as Hac.
    + subst c. rewrite (IH n Hname Hn). by repeat case_bool_decide; congruence.
    + rewrite bool_decide_eq_false_2; [done|congruence].
Qed.

Lemma before_absent (c : ascii) (s : string) :
  occurs c s = false -> before c s = s.
Proof.
  induction s as [|a s IH]; [done|]. simpl.
  case_bool_decide; [done|]. intros Hs. by rewrite IH.
Qed.

Lemma value_segment_entry (p : string * string) :
  token p.1 = true -> token p.2 = true ->
  Utils.value_segment (pair_entry p) = p.2.
Proof.
  intros H1%token_no_equals H2%token_no_equals.
  unfold Utils.value_segment, pair_entry.
  change ("=" +:+ p.2) with (String "="%char p.2).
  rewrite after_append by done. by apply before_absent.
Qed.

Lemma filter_entries (name : string) (jar : list (string * string)) :
  token name = true -> well_formed jar ->
  match filter (fun c => startsWith c (name +:+ "=") = true) (map pair_entry jar) with
  | [] => first_value name jar = None
  | e :: _ =>
      exists v, first_value name jar = Some v
                /\ Utils.value_segment e = v
                /\ startsWith e (name +:+ "=") = true
  end.
Proof.
  intros Hname Hwf. induction Hwf as [|p rest [H1 H2] _ IH]; [done|].
  simpl map. pose proof (prefix_name name p.1 p.2 Hname H1) as Hp.
  fold (pair_entry p) in Hp. simpl first_value.
  case_bool_decide as Heq.
  - rewrite filter_cons_True by done.
    exists p.2. by rewrite value_segment_entry.
  - rewrite filter_cons_False by (by rewrite Hp). exact IH.
Qed.

(** X1.  Reading back from a well-formed cookie string: [getCookie name]
    returns the decoded value of the first cookie of the jar named exactly
    [name], and [null] when the jar has none, whatever other cookies
    surround it. *)
Theorem getCookie_reads_jar (jar : list (string * string)) (name : string) :
  well_formed jar ->
  token name = true ->
  result_of (Utils.getCookie (U:=U) decodeURIComponent (cookie_string jar) name)
  = Some (match first_value name jar with
          | Some v => Result_map JStr (decodeURIComponent v)
          | None => Ok JNull
          end).
Proof.
  intros Hwf Hname. destruct jar as [|p rest]; [done|].
  assert (cookie_string (p :: rest) <> "") as Hne.
  { destruct rest; simpl; unfold pair_entry; destruct p.1; done. }
  rewrite getCookie_nonempty by done. unfold Utils.entries.
  pose proof (entries_cookie_string "" (p :: rest) (or_introl eq_refl) Hwf) as He.
  rewrite append_nil_l in He. rewrite He by done.
  pose proof (filter_entries name (p :: rest) Hname Hwf) as Hf.
  destruct (filter _ _) as [|e ?]; [by rewrite Hf|].
  destruct Hf as (v & -> & <- & Hstart).
  by rewrite (entry_second_piece name e Hstart).
Qed.

End CookieJarFacts.

Lemma getCookie_reads_jar_witness :
  result_of (Utils.getCookie (U:=unit) Ok
               "csrf=no; csrftoken=abc123; sessionid=xyz; csrftoken=later"
               "csrftoken")
  = Some (Ok (JStr "abc123")).
Proof.
  apply (getCookie_reads_jar (U:=unit) Ok
           [("csrf", "no"); ("csrftoken", "abc123"); ("sessionid", "xyz");
            ("csrftoken", "later")] "csrftoken").
  - repeat constructor.
  - reflexivity.
Defined.

(** ** components/EnsAndAddress.js: when the label throws, what it shows *)

Section LabelOutcomes.
Import EnsAndAddress.

Lemma getAbbrAddress_not_string (props : obj) :
  (forall a, props !! "address" <> Some (JStr a)) ->
  getAbbrAddress props (get props "address") = Err TypeError.
Proof.
  intros Hno. unfold getAbbrAddress, get.
  destruct (props !! "address") as [[| | | |a|]|] eqn:Ha; try done.
  by destruct (Hno a).
Qed.

Lemma guard_true (props : obj) (v : jsval) :
  props !! "false" = Some v -> missing_address_guard props = true.
Proof.
  intros H. rewrite guard_is_key_false, H. apply bool_decide_eq_true_2. by eexists.
Qed.

(** X2.  The label component throws exactly when the props have no key
    named [false], the naming hook is neither loading nor in error, and
    [props.address] is not a string; what it throws is a [TypeError]. *)
Theorem EnsAndAddress_throws_iff (props : obj) (ens : EnsName) (e : JsError) :
  EnsAndAddress props ens = Err e <->
  e = TypeError
  /\ props !! "false" = None
  /\ isLoading ens = false
  /\ isError ens = false
  /\ (forall a, props !! "address" <> Some (JStr a)).
Proof.
  unfold EnsAndAddress. split.
  - destruct (props !! "false") as [v|] eqn:Hf.
    { by rewrite (guard_true _ _ Hf). }
    rewrite (guard_false _ Hf).
    destruct (isLoading ens); [done|]. destruct (isError ens); [done|].
    destruct (props !! "address") as [[| | | |a|]|] eqn:Ha.
    5: { rewrite (getAbbrAddress_string _ _ Ha). by destruct (strict_neq _ _). }
    all: rewrite getAbbrAddress_not_string by (by rewrite Ha);
         destruct (strict_neq _ _); intros [= <-]; done.
  - intros (-> & Hf & -> & -> & Hno).
    rewrite (guard_false _ Hf), (getAbbrAddress_not_string _ Hno).
    by destruct (strict_neq _ _).
Qed.

(** X3.  The component shows "Missing address" exactly when the props
    have a key named [false], whether or not an address was passed. *)
Theorem missing_address_iff (props : obj) (ens : EnsName) :
  EnsAndAddress props ens = Ok Spec.missing_address <->
  is_Some (props !! "false").
Proof.
  unfold EnsAndAddress. split.
  - destruct (props !! "false") as [v|] eqn:Hf; [by eexists|].
    rewrite (guard_false _ Hf).
    destruct (isLoading ens); [done|]. destruct (isError ens); [done|].
    destruct (strict_neq (data ens) JNull);
      destruct (getAbbrAddress props (get props "address")) as [abbr|] eqn:Habbr;
      try done.
    intros [= _ _ ->]. by apply getAbbrAddress_dots in Habbr.
  - intros [v Hf]. by rewrite (guard_true _ _ Hf).
Qed.

Lemma length_append (s t : string) :
  String.length (s +:+ t) = (String.length s + String.length t)%nat.
Proof. induction s as [|a s IH]; [done|]. rewrite append_cons. simpl. by rewrite IH. Qed.

Lemma substring_length_le (n m : nat) (s : string) :
  (String.length (String.substring n m s) <= m)%nat.
Proof.
  revert n m. induction s as [|a s IH]; intros [|n] [|m]; simpl; try lia.
  - specialize (IH 0%nat m). lia.
  - apply (IH n 0%nat).
  - apply (IH n (S m)).
Qed.

Lemma substring_beyond (n m : nat) (s : string) :
  (String.length s <= n)%nat -> String.substring n m s = "".
Proof.
  revert n. induction s as [|a s IH]; intros [|n]; simpl; try done.
  - by destruct m.
  - lia.
  - intros H. apply IH. lia.
Qed.

Lemma substring_skip (p : string) (n m : nat) (s : string) :
  String.substring (String.length p + n) m (p +:+ s) = String.substring n m s.
Proof. induction p as [|a p IH]; [done|]. rewrite append_cons. simpl. apply IH. Qed.

Lemma substring_take (h r : string) :
  String.substring 0 (String.length h) (h +:+ r) = h.
Proof.
  induction h as [|a h IH]; [by destruct r|].
  rewrite append_cons. simpl. by rewrite IH.
Qed.

Lemma append_nil_r (s : string) : s +:+ "" = s.
Proof. induction s as [|a s IH]; [done|]. by rewrite append_cons, IH. Qed.

(** X4.  The abbreviation has at most 13 characters.  For an address
    made of [0x] and 40 further characters it is the first five of these,
    three dots and the last five.  An address of fewer than 38 characters
    has no tail left, and one of at most two characters gives only the
    dots. *)
Theorem abbreviation_shape (props : obj) (a : string) :
  props !! "address" = Some (JStr a) ->
  exists abbr,
    getAbbrAddress props (get props "address") = Ok abbr
    /\ (String.length abbr <= 13)%nat
    /\ (forall h m t,
          a = "0x" +:+ h +:+ m +:+ t ->
          String.length h = 5%nat -> String.length m = 30%nat ->
          String.length t = 5%nat ->
          abbr = h +:+ "..." +:+ t)
    /\ ((String.length a <= 37)%nat -> abbr = substr 2 5 a +:+ "...")
    /\ ((String.length a <= 2)%nat -> abbr = "...").
Proof.
  intros Ha. rewrite (getAbbrAddress_string _ _ Ha). eexists. split; [done|].
  unfold Spec.abbreviated, substr. split; [|split; [|split]].
  - rewrite !length_append.
    pose proof (substring_length_le 2 5 a).
    pose proof (substring_length_le 37 5 a). simpl. lia.
  - intros h m t -> Hh Hm Ht.
    change ("0x" +:+ h +:+ m +:+ t) with (String "0" (String "x" (h +:+ m +:+ t))).
    change (String.substring 2 5 (String "0" (String "x" (h +:+ m +:+ t))))
      with (String.substring 0 5 (h +:+ m +:+ t)).
    change (String.substring 37 5 (String "0" (String "x" (h +:+ m +:+ t))))
      with (String.substring 35 5 (h +:+ m +:+ t)).
    rewrite <- Hh at 1. rewrite substring_take.
    replace 35%nat with (String.length h + 30)%nat by lia.
    rewrite substring_skip.
    replace 30%nat with (String.length m + 0)%nat by lia.
    rewrite substring_skip.
    assert (String.substring 0 5 t = t) as ->; [|done].
    rewrite <- Ht. pose proof (substring_take t "") as Hall.
    by rewrite append_nil_r in Hall.
  - intros Hlen. by rewrite (substring_beyond 37 5 a) by lia.
  - intros Hlen. rewrite (substring_beyond 37 5 a), (substring_beyond 2 5 a) by lia.
    done.
Qed.

Lemma abbreviation_shape_witness :
  getAbbrAddress {[ "address" := JStr "0x1234567890abcdef1234567890abcdef12345678" ]}
    (JStr "0x1234567890abcdef1234567890abcdef12345678")
  = Ok "12345...45678"
  /\ getAbbrAddress {[ "address" := JStr "0x" ]} (JStr "0x") = Ok "...".
Proof.
  assert ((({[ "address" := JStr "0x1234567890abcdef1234567890abcdef12345678" ]} : obj)
             !! "address")
          = Some (JStr "0x1234567890abcdef1234567890abcdef12345678")) as Hlong
    by (vm_compute; reflexivity).
  assert ((({[ "address" := JStr "0x" ]} : obj) !! "address") = Some (JStr "0x"))
    as Hshort by (vm_compute; reflexivity).
  split.
  - destruct (abbreviation_shape _ _ Hlong) as (abbr & Hab & _ & Hshape & _).
    rewrite (Hshape "12345" "67890abcdef1234567890abcdef123" "45678"
               eq_refl eq_refl eq_refl eq_refl) in Hab.
    exact Hab.
  - destruct (abbreviation_shape _ _ Hshort) as (abbr & Hab & _ & _ & _ & Hdots).
    rewrite (Hdots ltac:(vm_compute; lia)) in Hab. exact Hab.
Defined.

End LabelOutcomes.

(** ** index.js: what the profile page shows as events arrive *)

Section ProfileDynamics.
Import Profile.
Variable baseAPI : string.
Variable decodeURIComponent : string -> Result string.

(** Setters leave the route and the naming data alone. *)
Lemma run_sync_keeps (p : Proc Update unit) (r : Render) :
  address (state_after p r) = address r
  /\ routerKey (state_after p r) = routerKey r
  /\ ensAvatar_data (state_after p r) = ensAvatar_data r.
Proof.
  unfold state_after. revert r.
  induction p as [a|e|args k IH|u k IH| |]; intros r; simpl; try done.
  - specialize (IH r). by destruct (run_sync apply k r) as [[??]?].
  - specialize (IH (apply u r)).
    destruct (run_sync apply k (apply u r)) as [[??]?]. simpl in *.
    by destruct u.
Qed.

(** A batch that leaves [pfpUrl] and the route key as they were runs no
    effect. *)
Lemma commit_quiet (prev r : Render) (fl : list Pending) :
  pfpUrl r = pfpUrl prev -> routerKey r = routerKey prev ->
  (commit baseAPI prev r fl).1 = mkWorld r fl.
Proof.
  intros Hp Hk. unfold commit. case_bool_decide; [done|].
  unfold run_effects.
  rewrite (bool_decide_eq_true_2 (routerKey r = routerKey prev)) by done.
  rewrite (bool_decide_eq_true_2 (pfpUrl r = pfpUrl prev)) by done.
  simpl. by rewrite bool_decide_eq_true_2.
Qed.

Lemma avatar_same (r r' : Render) :
  pfpUrl r' = pfpUrl r -> address r' = address r -> avatar r' = avatar r.
Proof. unfold avatar. by intros -> ->. Qed.

(** X5.  Data delivered by the naming hook after a render is not picked
    up: the event changes neither [pfpUrl] nor the profile data, starts no
    fetch, and the avatar on screen stays what it was. *)
Theorem naming_update_not_displayed (w : World) (ens : jsval) :
  let w' := (step baseAPI decodeURIComponent w (Naming ens)).1 in
  pfpUrl (cur w') = pfpUrl (cur w)
  /\ profileData (cur w') = profileData (cur w)
  /\ ensAvatar_data (cur w') = ens
  /\ inflight w' = inflight w
  /\ avatar (cur w') = avatar (cur w).
Proof.
  cbv zeta. unfold step. rewrite commit_quiet by done. simpl.
  by repeat split.
Qed.

(** X6.  A change of route (a new location key) keeps the profile data
    and the avatar of the page that was shown, now under the new address,
    and starts exactly one fetch, for the profile of the new address. *)
Theorem navigate_keeps_display (w : World) (addr key : string) (ens : jsval) :
  key <> routerKey (cur w) ->
  let w' := (step baseAPI decodeURIComponent w (Navigate addr key ens)).1 in
  cur w' = mkRender (profileData (cur w)) (pfpUrl (cur w)) addr key ens
  /\ exists k,
       inflight w'
       = inflight w
         ++ [(mkRequest (baseAPI +:+ "/" +:+ addr +:+ "/profile/") "GET" [] NoBody None,
              k)].
Proof.
  intros Hkey. cbv zeta. unfold step.
  set (r := mkRender _ _ addr key ens).
  rewrite commit_changed
    by (intros Heq; apply Hkey; by rewrite <- Heq).
  unfold run_effects. simpl.
  rewrite (bool_decide_eq_false_2 (key = routerKey (cur w))) by done.
  rewrite bool_decide_eq_true_2 by done.
  split; [done|]. by eexists.
Qed.

(** The continuation of a profile fetch, on a reply that is not a 200
    with a JSON body, sets nothing. *)
Lemma fetchProfile_failure_keeps (issued : Render) (req : Request)
    (k : FetchResult -> Proc Update unit) (res : FetchResult) (r : Render) :
  awaited (fetchProfile baseAPI issued) issued = [(req, k)] ->
  (forall data, res <> Response 200 (Some data)) ->
  state_after (k res) r = r.
Proof.
  intros [= <- <-] Hres. destruct res as [|status [data|]]; simpl; try done.
  - destruct (status =? 200) eqn:Hs.
    + apply Z.eqb_eq in Hs as ->. by destruct (Hres data).
    + by destruct (status =? 404).
  - destruct (status =? 200); [done|]. by destruct (status =? 404).
Qed.

Lemma fetchProfile_failure_sets (issued : Render) (req : Request)
    (k : FetchResult -> Proc Update unit) (res : FetchResult) (r : Render) :
  awaited (fetchProfile baseAPI issued) issued = [(req, k)] ->
  (forall data, res <> Response 200 (Some data)) ->
  sets_profileData (k res) r = false.
Proof.
  intros [= <- <-] Hres. unfold sets_profileData.
  destruct res as [|status [data|]]; simpl; try done.
  - destruct (status =? 200) eqn:Hs.
    + apply Z.eqb_eq in Hs as ->. by destruct (Hres data).
    + by destruct (status =? 404).
  - destruct (status =? 200); [done|]. by destruct (status =? 404).
Qed.

(** X7.  A profile fetch answered by anything but a 200 with a JSON body
    (a 404, another status, a rejected request, a body that does not
    parse) leaves the page exactly as it was: the data and the avatar
    shown before stay on screen. *)
Theorem failed_fetch_keeps_page (w : World) (i : nat) (req : Request)
    (k : FetchResult -> Proc Update unit) (issued : Render) (res : FetchResult) :
  inflight w !! i = Some (req, k) ->
  awaited (fetchProfile baseAPI issued) issued = [(req, k)] ->
  (forall data, res <> Response 200 (Some data)) ->
  step baseAPI decodeURIComponent w (Settle i res)
  = (mkWorld (cur w) (delete i (inflight w)), []).
Proof.
  intros Hi Hk Hres. unfold step. rewrite Hi. cbv zeta.
  rewrite (fetchProfile_failure_keeps issued req k res (cur w) Hk Hres).
  rewrite (fetchProfile_failure_sets issued req k res (cur w) Hk Hres).
  rewrite andb_false_r.
  unfold commit. by rewrite bool_decide_eq_true_2.
Qed.

Lemma pfpUrl_effect_result (r : Render) :
  let r' := state_after (pfpUrl_effect r) r in
  pfpUrl r' = ensAvatar_data r \/ (ensAvatar_data r = JStr "" /\ r' = r).
Proof.
  unfold pfpUrl_effect, state_after, strict_neq, strict_eq. simpl.
  case_bool_decide as Heq; [by left|].
  case_bool_decide as Hempty; simpl; [by right|by left].
Qed.

(** What a commit leaves in [pfpUrl]: the value of the batch when the
    batch did not change it, and else the naming data (unless that is the
    empty string). *)
Lemma commit_pfpUrl (prev r : Render) (fl : list Pending) :
  let c := cur (commit baseAPI prev r fl).1 in
  ensAvatar_data c = ensAvatar_data r
  /\ ((pfpUrl r = pfpUrl prev /\ c = r)
      \/ pfpUrl c = ensAvatar_data r
      \/ (ensAvatar_data r = JStr "" /\ c = r)).
Proof.
  cbv zeta. destruct (decide (r = prev)) as [->|Hne].
  { unfold commit. rewrite bool_decide_eq_true_2 by done. simpl. auto. }
  rewrite commit_changed by done. unfold run_effects. simpl.
  case_bool_decide as Hp; [auto|].
  destruct (pfpUrl_effect_keeps r) as (_ & _ & _ & He). simpl in He.
  split; [done|]. right.
  destruct (pfpUrl_effect_result r) as [H|H]; auto.
Qed.

Lemma handleFollow_sync (r : Render) (document_cookie : string) (st : Render) :
  state_after (handleFollow baseAPI decodeURIComponent r document_cookie) st = st
  /\ Forall (fun p : Pending => forall res st', state_after (p.2 res) st' = st')
       (awaited (handleFollow baseAPI decodeURIComponent r document_cookie) st).
Proof.
  unfold handleFollow, Utils.getCookie, state_after, awaited.
  destruct (negb _); simpl.
  { split; [done|]. repeat constructor. by intros []. }
  destruct (filter _ _); simpl.
  { split; [done|]. repeat constructor. by intros []. }
  destruct (decodeURIComponent _); simpl; [|by split].
  split; [done|]. repeat constructor. by intros [].
Qed.

Lemma step_naming_data (w : World) (e : Event) :
  ensAvatar_data (cur (step baseAPI decodeURIComponent w e).1)
  = match e with
    | Navigate _ _ ens | Naming ens => ens
    | _ => ensAvatar_data (cur w)
    end.
Proof.
  destruct e as [addr key ens|ens|i res|c]; unfold step.
  - by destruct (commit_pfpUrl (cur w) (mkRender (profileData (cur w))
                   (pfpUrl (cur w)) addr key ens) (inflight w)) as [-> _].
  - by destruct (commit_pfpUrl (cur w) (mkRender (profileData (cur w))
                   (pfpUrl (cur w)) (address (cur w)) (routerKey (cur w)) ens)
                   (inflight w)) as [-> _].
  - destruct (inflight w !! i) as [[req k]|]; [|done]. cbv zeta. cbn [fst].
    destruct (commit_pfpUrl (cur w) (state_after (k res) (cur w))
                (delete i (inflight w))) as [-> _].
    apply run_sync_keeps.
  - destruct (commit_pfpUrl (cur w)
                (state_after (handleFollow baseAPI decodeURIComponent (cur w) c) (cur w))
                (inflight w ++ awaited (handleFollow baseAPI decodeURIComponent (cur w) c)
                                  (cur w))) as [-> _].
    apply run_sync_keeps.
Qed.

(** After any event, [pfpUrl] is what it was before the event, or it is
    the naming data of the current render, or that data is the empty
    string. *)
Lemma step_pfpUrl (w : World) (e : Event) :
  let w' := (step baseAPI decodeURIComponent w e).1 in
  pfpUrl (cur w') = pfpUrl (cur w)
  \/ pfpUrl (cur w') = ensAvatar_data (cur w')
  \/ ensAvatar_data (cur w') = JStr "".
Proof.
  cbv zeta. pose proof (step_naming_data w e) as Hens.
  assert (forall r fl,
            pfpUrl (cur (commit baseAPI (cur w) r fl).1) = pfpUrl r
            \/ pfpUrl (cur (commit baseAPI (cur w) r fl).1)
               = ensAvatar_data (cur (commit baseAPI (cur w) r fl).1)
            \/ ensAvatar_data (cur (commit baseAPI (cur w) r fl).1) = JStr "")
    as Hcommit.
  { intros r fl. destruct (commit_pfpUrl (cur w) r fl) as [He [[_ ->]|[H|[H ->]]]];
      [by left| right; left; by rewrite He | right; right; done]. }
  destruct e as [addr key ens|ens|i res|c]; unfold step.
  - exact (Hcommit (mkRender (profileData (cur w)) (pfpUrl (cur w)) addr key ens)
             (inflight w)).
  - exact (Hcommit (mkRender (profileData (cur w)) (pfpUrl (cur w)) (address (cur w))
                      (routerKey (cur w)) ens) (inflight w)).
  - destruct (inflight w !! i) as [[req k]|]; [|by left]. cbv zeta. cbn [fst].
    destruct (commit_pfpUrl (cur w) (state_after (k res) (cur w))
                (delete i (inflight w))) as [He [[Hp ->]|[H|[H ->]]]].
    + by left.
    + right; left. by rewrite He.
    + right; right. done.
  - destruct (handleFollow_sync (cur w) c (cur w)) as [-> _].
    destruct (commit_pfpUrl (cur w) (cur w)
                (inflight w ++ awaited (handleFollow baseAPI decodeURIComponent (cur w) c)
                                  (cur w))) as [He [[_ ->]|[H|[H ->]]]];
      [by left| right; left; by rewrite He | by left].
Qed.

Lemma steps_cons (w : World) (e : Event) (es : list Event) :
  (steps baseAPI decodeURIComponent w (e :: es)).1
  = (steps baseAPI decodeURIComponent
       (step baseAPI decodeURIComponent w e).1 es).1.
Proof.
  simpl. destruct (step _ _ w e) as [w1 rs1]. simpl.
  by destruct (steps _ _ w1 es) as [w2 rs2].
Qed.

Lemma steps_settle_on_naming (vals : list jsval) (w : World) (es : list Event) :
  Forall (fun v => v <> JStr "") (vals ++ naming_values es) ->
  pfpUrl (cur w) ∈ vals -> ensAvatar_data (cur w) ∈ vals ->
  pfpUrl (cur (steps baseAPI decodeURIComponent w es).1)
  ∈ vals ++ naming_values es.
Proof.
  revert vals w. induction es as [|e es IH]; intros vals w Hne Hp He.
  { simpl. by rewrite app_nil_r. }
  rewrite steps_cons.
  set (w' := (step baseAPI decodeURIComponent w e).1).
  pose proof (step_naming_data w e) as Hens. fold w' in Hens.
  pose proof (step_pfpUrl w e) as Hpfp. cbv zeta in Hpfp. fold w' in Hpfp.
  assert (naming_values (e :: es) = naming_values [e] ++ naming_values es) as Hsplit
    by (unfold naming_values; by rewrite <- omap_app).
  rewrite Hsplit, app_assoc in Hne |- *.
  assert (ensAvatar_data (cur w') ∈ vals ++ naming_values [e]) as He'.
  { rewrite Hens. apply elem_of_app.
    destruct e; simpl; [right; by left|right; by left|by left|by left]. }
  apply IH; [done| |done].
  destruct Hpfp as [-> | [-> | Hempty]]; [apply elem_of_app; by left|done|].
  apply Forall_app in Hne as [Hne _].
  rewrite Forall_forall in Hne. by destruct (Hne _ He').
Qed.

Lemma mount_state (addr key : string) (ens : jsval) :
  ens <> JStr "" ->
  let w := (mount baseAPI addr key ens).1 in
  pfpUrl (cur w) = ens /\ ensAvatar_data (cur w) = ens
  /\ Forall (keeps_pfpUrl ens) (inflight w).
Proof.
  intros Hne. cbv zeta. unfold mount.
  set (r0 := first_render addr key ens).
  set (fl := awaited (fetchProfile baseAPI r0) r0).
  set (r1 := state_after (pfpUrl_effect r0) r0).
  assert (pfpUrl r1 = ens /\ ensAvatar_data r1 = ens /\ routerKey r1 = routerKey r0)
    as (Hp & He & Hk).
  { destruct (pfpUrl_effect_keeps r0) as (_ & _ & Hk & He). fold r1 in Hk, He.
    destruct (pfpUrl_effect_result r0) as [H|[H _]]; [|done]. by fold r1 in H. }
  assert (Forall (keeps_pfpUrl ens) fl) as Hfl.
  { subst fl. repeat constructor. intros res r Hr. simpl.
    destruct res as [|status [data|]]; simpl; try done.
    - destruct (status =? 200); [done|]. by destruct (status =? 404).
    - destruct (status =? 200); [done|]. by destruct (status =? 404). }
  destruct (commit baseAPI r0 r1 fl) as [w rs] eqn:Hc. simpl.
  assert (w = (commit baseAPI r0 r1 fl).1) as -> by (by rewrite Hc).
  destruct (decide (r1 = r0)) as [Heq|Hneq].
  - unfold commit. rewrite bool_decide_eq_true_2 by done. done.
  - rewrite commit_changed by done. unfold run_effects.
    rewrite (bool_decide_eq_true_2 (routerKey r1 = routerKey r0)) by done. simpl.
    case_bool_decide; [done|].
    destruct (pfpUrl_effect_keeps r1) as (_ & _ & _ & He1).
    destruct (pfpUrl_effect_result r1) as [H1|[_ ->]]; [|done].
    simpl in *. by rewrite H1, He1, He.
Qed.

(** X8.  Whatever the profile replies contain, after any sequence of
    events the avatar source the page holds is one of the values the
    naming hook has reported (none of them being the empty string): an
    image taken from the profile never stays unless it is equal to one of
    those. *)
Theorem avatar_settles_on_naming (addr key : string) (ens : jsval) (es : list Event) :
  Forall (fun v => v <> JStr "") (ens :: naming_values es) ->
  pfpUrl (cur (session baseAPI decodeURIComponent addr key ens es).1)
  ∈ ens :: naming_values es.
Proof.
  intros Hne. unfold session.
  pose proof (mount_state addr key ens) as Hm. cbv zeta in Hm.
  destruct (mount baseAPI addr key ens) as [w0 rs0]. simpl in Hm.
  destruct Hm as (Hp & He & _); [by inversion Hne|].
  pose proof (steps_settle_on_naming [ens] w0 es Hne) as Hs.
  destruct (steps _ _ w0 es) as [w rs]. simpl in *.
  apply Hs; rewrite ?Hp, ?He; by left.
Qed.

Lemma step_keeps_pfpUrl (v : jsval) (w : World) (e : Event) :
  is_navigate e = false ->
  pfpUrl (cur w) = v -> Forall (keeps_pfpUrl v) (inflight w) ->
  let w' := (step baseAPI decodeURIComponent w e).1 in
  pfpUrl (cur w') = v /\ Forall (keeps_pfpUrl v) (inflight w').
Proof.
  intros Hnav Hp Hfl. cbv zeta.
  destruct e as [addr key ens|ens|i res|c]; [done| | |]; unfold step.
  - by rewrite commit_quiet.
  - destruct (inflight w !! i) as [[req k]|] eqn:Hi; [|done]. cbv zeta. cbn [fst].
    pose proof (Forall_lookup_1 _ _ _ _ Hfl Hi res (cur w) Hp) as Hk. simpl in Hk.
    destruct (run_sync_keeps (k res) (cur w)) as (_ & Hkey & _).
    rewrite commit_quiet by congruence. simpl.
    split; [done|]. by apply Forall_delete.
  - destruct (handleFollow_sync (cur w) c (cur w)) as [-> Hnew].
    rewrite commit_quiet by done. simpl. split; [done|].
    apply Forall_app. split; [done|].
    eapply Forall_impl; [exact Hnew|]. intros p Hkeep res r Hr. by rewrite Hkeep.
Qed.

Lemma steps_keep_pfpUrl (v : jsval) (w : World) (es : list Event) :
  forallb (fun e => negb (is_navigate e)) es = true ->
  pfpUrl (cur w) = v -> Forall (keeps_pfpUrl v) (inflight w) ->
  pfpUrl (cur (steps baseAPI decodeURIComponent w es).1) = v.
Proof.
  revert w. induction es as [|e es IH]; intros w Hes Hp Hfl; [done|].
  simpl in Hes. apply andb_true_iff in Hes as [He%negb_true_iff Hes].
  rewrite steps_cons.
  destruct (step_keeps_pfpUrl v w e He Hp Hfl) as [Hp' Hfl'].
  by apply IH.
Qed.

(** X9.  Until the route changes, the avatar source of a page is the
    naming data of its first render (that data not being the empty
    string): neither naming data that arrives later, nor the image of the
    profile when its reply comes, nor a click on Follow changes it.  With
    the naming lookup still unresolved at the first render the page ends on
    an image without source. *)
Theorem first_visit_avatar_fixed (addr key : string) (ens : jsval) (es : list Event) :
  ens <> JStr "" ->
  forallb (fun e => negb (is_navigate e)) es = true ->
  let w := (session baseAPI decodeURIComponent addr key ens es).1 in
  pfpUrl (cur w) = ens
  /\ (ens = JUndefined -> avatar (cur w) = Image JUndefined).
Proof.
  intros Hne Hes. cbv zeta. unfold session.
  pose proof (mount_state addr key ens Hne) as Hm. cbv zeta in Hm.
  destruct (mount baseAPI addr key ens) as [w0 rs0]. simpl in Hm.
  destruct Hm as (Hp & _ & Hfl).
  pose proof (steps_keep_pfpUrl ens w0 es Hes Hp Hfl) as Hs.
  destruct (steps _ _ w0 es) as [w rs]. simpl in *.
  split; [done|]. intros ->. unfold avatar. by rewrite Hs.
Qed.

End ProfileDynamics.

Section ProfileDynamicsRuns.
Import Profile Scenario.

Lemma navigate_keeps_display_witness :
  let w' := (step "/api" Ok (mkWorld followed_page []) (Navigate addrA "k2" JUndefined)).1 in
  cur w' = mkRender {[ "numFollowers" := JNum 3 ]} JNull addrA "k2" JUndefined
  /\ exists k,
       inflight w'
       = [(mkRequest ("/api/" +:+ addrA +:+ "/profile/") "GET" [] NoBody None, k)].
Proof.
  exact (navigate_keeps_display "/api" Ok (mkWorld followed_page [])
           addrA "k2" JUndefined ltac:(discriminate)).
Defined.

Lemma failed_fetch_keeps_page_witness :
  step "/api" Ok switched (Settle 1 (Response 404 None))
  = (mkWorld (cur switched) (delete 1%nat (inflight switched)), []).
Proof.
  refine (failed_fetch_keeps_page "/api" Ok switched 1 _ _
            (mkRender ∅ JUndefined addrB "k1" JUndefined) (Response 404 None)
            _ eq_refl _).
  - reflexivity.
  - discriminate.
Defined.

Lemma avatar_settles_on_naming_witness :
  pfpUrl (cur (session "/api" Ok addrA "k0" (JStr "https://ens/Y.png")
                 [Settle 0 (Response 200 (Some custom));
                  Navigate addrA "k1" (JStr "https://ens/Y.png");
                  Settle 0 (Response 200 (Some custom))]).1)
  ∈ [JStr "https://ens/Y.png"; JStr "https://ens/Y.png"].
Proof.
  apply (avatar_settles_on_naming "/api" Ok addrA "k0" (JStr "https://ens/Y.png")
           [Settle 0 (Response 200 (Some custom));
            Navigate addrA "k1" (JStr "https://ens/Y.png");
            Settle 0 (Response 200 (Some custom))]).
  repeat constructor; discriminate.
Defined.

Lemma first_visit_avatar_fixed_witness :
  avatar (cur (session "/api" Ok addrA "k0" JUndefined
                 [Naming (JStr "https://ens/Y.png");
                  Settle 0 (Response 200 (Some custom));
                  ClickFollow "csrftoken=t";
                  Naming (JStr "https://ens/Z.png")]).1)
  = Image JUndefined.
Proof.
  apply (first_visit_avatar_fixed "/api" Ok addrA "k0" JUndefined
           [Naming (JStr "https://ens/Y.png");
            Settle 0 (Response 200 (Some custom));
            ClickFollow "csrftoken=t";
            Naming (JStr "https://ens/Z.png")]
           ltac:(discriminate) eq_refl).
  reflexivity.
Defined.

End ProfileDynamicsRuns.

(** ** pages/CreateProfile: the form handlers together *)

Section FormDynamics.
Import CreateProfileForm.
Variable baseAPI : string.
Variable decodeURIComponent : string -> Result string.

Lemma after_handleChange (name : string) (value : jsval) (profile : obj) :
  Form.after (handleChange name value) [] profile = Some (<[name := value]> profile).
Proof. reflexivity. Qed.

(** X10.  Typing in a field of the form stores the value under the name
    of the field, at the top level of the profile, and leaves every other
    key as it was: in particular no field writes into [socials] or
    [image].  Changes of two different fields give the same profile in
    either order. *)
Theorem handleChange_fields (name : string) (value : jsval) (profile : obj) :
  name ∈ field_names ->
  exists profile',
    Form.after (handleChange name value) [] profile = Some profile'
    /\ get profile' name = value
    /\ (forall k, k <> name -> profile' !! k = profile !! k)
    /\ get profile' "socials" = get profile "socials"
    /\ get profile' "image" = get profile "image"
    /\ (forall name2 value2, name2 <> name ->
          (Form.after (handleChange name2 value2) [] profile'
           = (Form.after (handleChange name2 value2) [] profile
                ≫= Form.after (handleChange name value) []))).
Proof.
  intros Hin. eexists. split; [apply after_handleChange|].
  assert (name <> "socials" /\ name <> "image") as [Hs Hi].
  { unfold field_names in Hin. rewrite !elem_of_cons in Hin.
    destruct Hin as [->|[->|[->|[->|[->|[->|[->|[->|H]]]]]]]]; try done.
    by apply elem_of_nil in H. }
  unfold get. split; [by rewrite lookup_insert_eq|].
  split; [intros k Hk; by rewrite lookup_insert_ne|].
  split; [by rewrite lookup_insert_ne|]. split; [by rewrite lookup_insert_ne|].
  intros name2 value2 Hne. rewrite !after_handleChange. simpl.
  rewrite after_handleChange. f_equal. by apply insert_insert_ne.
Qed.

Lemma handleSubmit_run (address : string) (profile initialState : obj)
    (document_cookie : string) (answers : list Answer) (st : obj) :
  run Form.apply
    (handleSubmit baseAPI decodeURIComponent true address profile initialState
       document_cookie) answers st
  = match result_of (Utils.getCookie (U:=Form.Update) decodeURIComponent
                       document_cookie "csrftoken") with
    | Some (Ok csrf) =>
        let req := mkRequest (baseAPI +:+ "/" +:+ address +:+ "/profile/") "POST"
                     [("Content-Type", JStr "application/json"); ("X-CSRFTOKEN", csrf)]
                     (JsonStringify profile) (Some "include") in
        let logged := ELog <$> logs (Utils.getCookie (U:=Form.Update) decodeURIComponent
                                       document_cookie "csrftoken") in
        match answers with
        | AFetch Rejected :: _ => Some (st, logged ++ [EFetch req], Err NetworkError)
        | AFetch (Response _ _) :: _ =>
            Some (initialState,
                  logged ++ [EFetch req; ELog [JStr "successfully posted data"];
                             ESet (Form.SetProfile initialState)], Ok tt)
        | _ => None
        end
    | Some (Err e) =>
        Some (st, ELog <$> logs (Utils.getCookie (U:=Form.Update) decodeURIComponent
                                   document_cookie "csrftoken"), Err e)
    | None => None
    end.
Proof.
  unfold handleSubmit. simpl.
  rewrite (run_bind_logs Form.apply) by apply getCookie_only_logs.
  destruct (result_of _) as [[csrf|e]|]; [|done..].
  simpl. destruct answers as [|[[|status json]|?] rest]; simpl; try done.
  by rewrite posted_always.
Qed.

(** X11.  What [handleSubmit] sends.  Without a connected wallet it
    sends nothing and sets nothing.  With one, it first reads the
    [csrftoken] cookie: when that throws, the handler throws before any
    request; otherwise every run makes exactly one request, a POST to the
    profile of the address whose body is the profile as it was at the
    click, with the value read (null when there is no cookie) as
    [X-CSRFTOKEN]; a rejected request leaves the form as it was. *)
Theorem handleSubmit_request (address : string) (profile initialState : obj)
    (document_cookie : string) (st : obj) :
  let submit c := handleSubmit baseAPI decodeURIComponent c address profile
                    initialState document_cookie in
  let request csrf :=
    mkRequest (baseAPI +:+ "/" +:+ address +:+ "/profile/") "POST"
      [("Content-Type", JStr "application/json"); ("X-CSRFTOKEN", csrf)]
      (JsonStringify profile) (Some "include") in
  (forall answers, run Form.apply (submit false) answers st = Some (st, [], Ok tt))
  /\ (forall e answers,
        result_of (Utils.getCookie (U:=Form.Update) decodeURIComponent
                     document_cookie "csrftoken") = Some (Err e) ->
        exists tr,
          run Form.apply (submit true) answers st = Some (st, tr, Err e)
          /\ fetches tr = [])
  /\ (forall csrf answers st' tr res,
        result_of (Utils.getCookie (U:=Form.Update) decodeURIComponent
                     document_cookie "csrftoken") = Some (Ok csrf) ->
        run Form.apply (submit true) answers st = Some (st', tr, res) ->
        fetches tr = [request csrf])
  /\ (forall csrf,
        result_of (Utils.getCookie (U:=Form.Update) decodeURIComponent
                     document_cookie "csrftoken") = Some (Ok csrf) ->
        exists tr,
          run Form.apply (submit true) [AFetch Rejected] st
          = Some (st, tr, Err NetworkError))
  /\ (document_cookie = "" ->
      forall fr, exists st' tr res,
        run Form.apply (submit true) [AFetch fr] st = Some (st', tr, res)
        /\ fetches tr = [request JNull]).
Proof.
  cbv zeta. split; [done|]. split; [|split; [|split]].
  - intros e answers He. rewrite handleSubmit_run, He. eexists. split; [done|].
    apply fetches_logs.
  - intros csrf answers st' tr res Hc. rewrite handleSubmit_run, Hc.
    destruct answers as [|[[|status json]|?] rest]; try done;
      intros [= _ <- _]; by rewrite fetches_app, fetches_logs.
  - intros csrf Hc. rewrite handleSubmit_run, Hc. by eexists.
  - intros -> fr. rewrite handleSubmit_run. simpl.
    destruct fr; by eexists _, _, _.
Qed.

(** X12.  [checkForProfile] logs "profile already exists" exactly when
    [res.profile] is the boolean [true]; for a profile object, [null] or a
    missing property it logs "profile does not exist".  It sets nothing. *)
Theorem checkForProfile_only_true (res : obj) :
  (logs (checkForProfile res) = [[JStr "profile already exists"]]
   <-> res !! "profile" = Some (JBool true))
  /\ (logs (checkForProfile res) = [[JStr "profile does not exist"]]
      <-> res !! "profile" <> Some (JBool true))
  /\ (forall profile, Form.after (checkForProfile res) [] profile = Some profile).
Proof.
  unfold checkForProfile, strict_eq, get.
  change (js_not JNull) with (JBool true).
  destruct (res !! "profile") as [v|] eqn:Hp; simpl.
  - case_bool_decide as Hv; simpl.
    + subst v. split; [done|]. split; [|done]. split; [done|]. intros H. by destruct H.
    + split; [split; [done|congruence]|]. split; [|done]. split; congruence.
  - split; [done|]. split; [|done]. done.
Qed.

(** X13.  An upload answered with a truthy [ok] followed by a submit:
    the body of the request sent by the submit is the profile with its
    [image] set to the gateway address of the uploaded content, and the
    form is back at its initial state afterwards. *)
Theorem upload_then_submit (token : string) (content : jsval) (cid : string)
    (status : Z) (data : obj) (address : string) (profile initialState : obj)
    (document_cookie : string) (csrf : jsval) (status' : Z) (json : option obj) :
  truthy (get data "ok") = true ->
  result_of (Utils.getCookie (U:=Form.Update) decodeURIComponent
               document_cookie "csrftoken") = Some (Ok csrf) ->
  exists uploaded tr,
    Form.after (FileUpload.handleFileSubmit token true content)
      [AStore (Some cid); AFetch (Response status (Some data))] profile
    = Some uploaded
    /\ run Form.apply
         (handleSubmit baseAPI decodeURIComponent true address uploaded
            initialState document_cookie)
         [AFetch (Response status' json)] uploaded
       = Some (initialState, tr, Ok tt)
    /\ req_body <$> fetches tr
       = [JsonStringify
            (<["image" := JStr ("https://www.ipfs.com/ipfs/" +:+ cid)]> profile)].
Proof.
  intros Hok Hc. eexists _, _. split; [|split].
  - unfold Form.after, FileUpload.handleFileSubmit. simpl. rewrite Hok. reflexivity.
  - rewrite handleSubmit_run, Hc. reflexivity.
  - by rewrite fetches_app, fetches_logs.
Qed.

Lemma handleChange_fields_witness :
  exists profile',
    Form.after (handleChange "twitter" (JStr "@gm")) [] Scenario.filled_form
    = Some profile'
    /\ get profile' "twitter" = JStr "@gm"
    /\ get profile' "socials" = JRef 1.
Proof.
  destruct (handleChange_fields "twitter" (JStr "@gm") Scenario.filled_form)
    as (profile' & Hafter & Hset & _ & Hsocials & _).
  - vm_compute. do 2 right. left.
  - exists profile'. split; [exact Hafter|]. split; [exact Hset|].
    rewrite Hsocials. vm_compute. reflexivity.
Defined.

End FormDynamics.

Section FormDynamicsRuns.
Import CreateProfileForm.

Lemma handleSubmit_request_witness :
  exists st' tr res,
    run Form.apply
      (handleSubmit "/api" Ok true Scenario.addrA Scenario.filled_form
         Scenario.empty_form "")
      [AFetch (Response 201 None)] Scenario.filled_form
    = Some (st', tr, res)
    /\ fetches tr
       = [mkRequest ("/api/" +:+ Scenario.addrA +:+ "/profile/") "POST"
            [("Content-Type", JStr "application/json"); ("X-CSRFTOKEN", JNull)]
            (JsonStringify Scenario.filled_form) (Some "include")].
Proof.
  exact (proj2 (proj2 (proj2 (proj2
           (handleSubmit_request "/api" Ok Scenario.addrA Scenario.filled_form
              Scenario.empty_form "" Scenario.filled_form))))
           eq_refl (Response 201 None)).
Defined.

Lemma upload_then_submit_witness :
  exists uploaded tr,
    Form.after (FileUpload.handleFileSubmit "secret" true (JRef 1))
      [AStore (Some "bafkreiabc"); AFetch (Response 200 (Some {[ "ok" := JBool true ]}))]
      Scenario.filled_form
    = Some uploaded
    /\ run Form.apply
         (handleSubmit "/api" Ok true Scenario.addrA uploaded Scenario.empty_form
            "csrftoken=t")
         [AFetch (Response 500 None)] uploaded
       = Some (Scenario.empty_form, tr, Ok tt)
    /\ req_body <$> fetches tr
       = [JsonStringify
            (<["image" := JStr "https://www.ipfs.com/ipfs/bafkreiabc"]>
               Scenario.filled_form)].
Proof.
  exact (upload_then_submit "/api" Ok "secret" (JRef 1) "bafkreiabc" 200
           {[ "ok" := JBool true ]} Scenario.addrA Scenario.filled_form
           Scenario.empty_form "csrftoken=t" (JStr "t") 500 None eq_refl eq_refl).
Defined.

End FormDynamicsRuns.

(** ** pages/Home/Home.js: the home page over time *)

Section HomeFacts.
Import Home.

Lemma run_effects_later (prev r : Render) :
  run_effects false prev r
  = mkRender (user r)
      (if bool_decide (user r = user prev) then profileData r else user r)
      (if bool_decide (profileData r = profileData prev) then loading r else false).
Proof.
  unfold run_effects, state_after. destruct r as [u pd l]. simpl.
  by repeat case_bool_decide.
Qed.

(** Three rounds of effects are enough: more fuel gives the same renders. *)
Lemma settle_enough (n : nat) (prev r : Render) :
  settle (3 + n) prev r = settle 3 prev r.
Proof.
  destruct prev as [u0 pd0 l0], r as [u pd l].
  cbn [settle Nat.add]. rewrite !run_effects_later. simpl.
  repeat (case_bool_decide; simplify_eq/=; try done).
  all: destruct n; simpl; rewrite ?run_effects_later; simpl;
       repeat (case_bool_decide; simplify_eq/=; try done); done.
Qed.

(** A commit from a state whose [loading] is false ends on the state the
    batch asked for, with the profile data following a new user. *)
Lemma commit_tracks (r : Render) (u' pd' : option Obj) :
  loading r = false ->
  let target := mkRender u' (if bool_decide (u' = user r) then pd' else u') false in
  (commit r (mkRender u' pd' false)).1 = target.
Proof.
  intros Hl. destruct r as [u pd l]. simpl in Hl. subst l.
  unfold commit. cbn [settle fst]. rewrite !run_effects_later. simpl.
  repeat (case_bool_decide; simplify_eq/=; try done).
Qed.

Lemma step_tracks (r : Render) (e : Event) :
  loading r = false ->
  let r' := (step r e).1 in
  loading r' = false
  /\ (user r', profileData r') = track (user r, profileData r) e.
Proof.
  intros Hl. cbv zeta. destruct e as [u|v]; unfold step, track; rewrite Hl.
  - rewrite commit_tracks by done. simpl. split; [done|].
    case_bool_decide; [by subst u|done].
  - rewrite commit_tracks by done. simpl.
    by rewrite bool_decide_eq_true_2.
Qed.

Lemma mount_tracks (u : option Obj) : (mount u).1 = mkRender u u false.
Proof.
  unfold mount, commit, first_render. cbn [settle]. rewrite !run_effects_later.
  unfold run_effects, state_after. simpl.
  destruct u as [o|]; simpl; repeat (case_bool_decide; simplify_eq/=; try done);
    done.
Qed.

Lemma steps_tracks (r : Render) (es : list Event) :
  loading r = false ->
  let r' := (steps r es).1 in
  loading r' = false
  /\ (user r', profileData r') = foldl track (user r, profileData r) es.
Proof.
  revert r. induction es as [|e es IH]; intros r Hl; [done|].
  cbv zeta. simpl. destruct (step_tracks r e Hl) as [Hl1 H1].
  destruct (step r e) as [r1 rs1]. simpl in *.
  destruct (IH r1 Hl1) as [Hl2 H2].
  destruct (steps r1 es) as [r2 rs2]. simpl in *.
  by rewrite <- H1.
Qed.

(** X14.  Whatever the user objects the hook returns (the same object
    between two changes) and whatever the feed sets, the page ends with
    [loading] false and with the user and profile data that the events ask
    for: another user object, even one with the same properties, replaces
    the profile data; the feed's setter replaces it alone.  Signed out, the
    page shows "Please sign in." and "Loading..." together; signed in with
    profile data, the feed of the user's address. *)
Theorem Home_settles (u : option Obj) (es : list Event) :
  let r := (session u es).1 in
  let s := foldl track (u, u) es in
  r = mkRender s.1 s.2 false
  /\ view r = match s.1, s.2 with
              | None, _ => [PleaseSignIn; Loading]
              | Some _, None => [Loading]
              | Some usr, Some pd => [WalletFeed pd (get (fields usr) "address") usr]
              end.
Proof.
  cbv zeta. unfold session.
  pose proof (mount_tracks u) as Hm. destruct (mount u) as [r0 rs0]. simpl in Hm.
  subst r0.
  pose proof (steps_tracks (mkRender u u false) es eq_refl) as Hs. cbv zeta in Hs.
  destruct (steps _ es) as [r rs]. simpl in *. destruct Hs as [Hl Hs].
  destruct r as [ru rpd rl]. simpl in *. subst rl. rewrite <- Hs. simpl.
  split; [done|]. unfold view. simpl. by destruct ru, rpd.
Qed.

(** The feed sets profile data of its own, then the hook returns a new
    user object with the properties of the old one: the effect on [user]
    runs and the profile data is that user again. *)
Lemma Home_settles_witness :
  (session (Some (mkObj 1 {[ "address" := JStr Scenario.addrA ]}))
     [ChildSetsProfileData (Some (mkObj 2 {[ "bio" := JStr "edited" ]}));
      UserChange (Some (mkObj 3 {[ "address" := JStr Scenario.addrA ]}))]).1
  = mkRender (Some (mkObj 3 {[ "address" := JStr Scenario.addrA ]}))
      (Some (mkObj 3 {[ "address" := JStr Scenario.addrA ]})) false.
Proof.
  exact (proj1 (Home_settles (Some (mkObj 1 {[ "address" := JStr Scenario.addrA ]}))
                  [ChildSetsProfileData (Some (mkObj 2 {[ "bio" := JStr "edited" ]}));
                   UserChange (Some (mkObj 3 {[ "address" := JStr Scenario.addrA ]}))])).
Defined.

(** X15.  The renders on the way.  A signed-in visitor first sees
    "Loading...", then the feed.  A signed-out visitor is rendered twice,
    both times with "Please sign in." and "Loading...".  When the user
    changes, the feed is rendered once with the profile data of the
    previous user under the address of the new one, before it gets the
    new user's data. *)
Theorem Home_renders (u1 u2 : Obj) :
  u1 <> u2 ->
  view <$> (mount (Some u1)).2
  = [[Loading]; [WalletFeed u1 (get (fields u1) "address") u1]]
  /\ view <$> (mount None).2
     = [[PleaseSignIn; Loading]; [PleaseSignIn; Loading]]
  /\ view <$> (step (mkRender (Some u1) (Some u1) false) (UserChange (Some u2))).2
     = [[WalletFeed u1 (get (fields u2) "address") u2];
        [WalletFeed u2 (get (fields u2) "address") u2]]
  /\ view <$> (step (mkRender (Some u1) (Some u1) false) (UserChange None)).2
     = [[PleaseSignIn; Loading]; [PleaseSignIn; Loading]].
Proof.
  intros Hne.
  unfold mount, step, commit, first_render. cbn [settle].
  rewrite !run_effects_later. unfold run_effects, state_after. simpl.
  repeat split; repeat (case_bool_decide; simplify_eq/=; try done); done.
Qed.

Lemma Home_renders_witness :
  view <$> (step (mkRender (Some (mkObj 1 {[ "address" := JStr Scenario.addrA ]}))
                    (Some (mkObj 1 {[ "address" := JStr Scenario.addrA ]})) false)
              (UserChange (Some (mkObj 2 {[ "address" := JStr Scenario.addrB ]})))).2
  = [[WalletFeed (mkObj 1 {[ "address" := JStr Scenario.addrA ]}) (JStr Scenario.addrB)
        (mkObj 2 {[ "address" := JStr Scenario.addrB ]})];
     [WalletFeed (mkObj 2 {[ "address" := JStr Scenario.addrB ]}) (JStr Scenario.addrB)
        (mkObj 2 {[ "address" := JStr Scenario.addrB ]})]].
Proof.
  exact (proj1 (proj2 (proj2 (Home_renders
           (mkObj 1 {[ "address" := JStr Scenario.addrA ]})
           (mkObj 2 {[ "address" := JStr Scenario.addrB ]})
           ltac:(discriminate))))).
Defined.

End HomeFacts.
